(** * The analysis resource of turkce-metin-isleme

    A shallow embedding of the Express server that keeps analyses in an
    in-memory [Map] and serves them under [/api/analyze] (GET, POST, PUT,
    DELETE), followed by the properties of its create / read / update /
    delete life cycle.

    Conventions of the embedding:
    - a JavaScript string is a [string] holding its UTF-8 bytes;
    - the [Map] is the entry list of ECMAScript, in insertion order;
    - an object is its list of own properties, in creation order;
    - what a handler reads from outside the program (the environment
      variable, the provider's answer, the random bits behind
      [randomUUID], the clock) is a field of [env];
    - a handler runs from its first statement to its response in one piece:
      no other request is interleaved at its [await]. *)

From Stdlib Require Import String Ascii List NArith Bool Arith Lia.
From Stdlib Require Import DecimalString.
Import ListNotations.
Open Scope string_scope.
Open Scope list_scope.

(** ** JavaScript strings *)

Definition byte_string (codes : list nat) : string :=
  string_of_list_ascii (map ascii_of_nat codes).

(** The quotation mark, which a literal cannot hold. *)
Definition dquote : string := byte_string [34].

Fixpoint string_rev_append (s acc : string) : string :=
  match s with
  | EmptyString => acc
  | String c s' => string_rev_append s' (String c acc)
  end.

Definition string_rev (s : string) : string := string_rev_append s "".

(** The code points that [String.prototype.trim] removes (WhiteSpace and
    LineTerminator of ECMAScript), each as its UTF-8 bytes: U+0009..U+000D,
    U+0020, U+00A0, U+1680, U+2000..U+200A, U+2028, U+2029, U+202F, U+205F,
    U+3000, U+FEFF. *)
Definition WhiteSpace : list string :=
  map byte_string
    [ [9]; [10]; [11]; [12]; [13]; [32]; [194; 160]; [225; 154; 128];
      [226; 128; 128]; [226; 128; 129]; [226; 128; 130]; [226; 128; 131];
      [226; 128; 132]; [226; 128; 133]; [226; 128; 134]; [226; 128; 135];
      [226; 128; 136]; [226; 128; 137]; [226; 128; 138];
      [226; 128; 168]; [226; 128; 169]; [226; 128; 175];
      [226; 129; 159]; [227; 128; 128]; [239; 187; 191] ].

(** [strip_prefix p s] is [s] without its prefix [p], when it starts with it. *)
Fixpoint strip_prefix (p s : string) : option string :=
  match p, s with
  | EmptyString, _ => Some s
  | String a p', String b s' => if Ascii.eqb a b then strip_prefix p' s' else None
  | String _ _, EmptyString => None
  end.

Fixpoint strip_any (ps : list string) (s : string) : option string :=
  match ps with
  | [] => None
  | p :: ps' =>
      match strip_prefix p s with
      | Some r => Some r
      | None => strip_any ps' s
      end
  end.

(** Strips prefixes among [ps] for as long as one is found; [fuel] bounds the
    number of rounds, and the length of the string is always enough
    ([strip_all_done]). *)
Fixpoint strip_all (ps : list string) (fuel : nat) (s : string) : string :=
  match fuel with
  | O => s
  | S n =>
      match strip_any ps s with
      | Some r => strip_all ps n r
      | None => s
      end
  end.

Definition trimStart (s : string) : string :=
  strip_all WhiteSpace (String.length s) s.

Definition trimEnd (s : string) : string :=
  string_rev
    (strip_all (map string_rev WhiteSpace) (String.length s) (string_rev s)).

(** [text.trim()] *)
Definition trim (s : string) : string := trimEnd (trimStart s).

(** A text made of white space only: the specification's notion, stated on
    the text itself and not through [trim]. *)
Inductive whitespace_only : string -> Prop :=
| ws_empty : whitespace_only ""
| ws_more (w s : string) :
    In w WhiteSpace -> whitespace_only s -> whitespace_only (w ++ s).

(** ** Values read from a request

    A field of the query or of the JSON body, as far as the handlers can
    tell values apart: absent, a string, or any other value, of which they
    only ever see the truthiness and the text a template literal gives it. *)
Inductive jsval :=
| JsUndefined
| JsString (s : string)
| JsOther (truthy : bool) (shown : string).

(** ToBoolean *)
Definition truthy (v : jsval) : bool :=
  match v with
  | JsUndefined => false
  | JsString s => negb (s =? "")
  | JsOther t _ => t
  end.

(** typeof v === 'string' *)
Definition typeof_string (v : jsval) : bool :=
  match v with
  | JsString _ => true
  | _ => false
  end.

(** The text of [v] inside a template literal. *)
Definition to_string (v : jsval) : string :=
  match v with
  | JsUndefined => "undefined"
  | JsString s => s
  | JsOther _ shown => shown
  end.

(** [a || b] *)
Definition js_or (a b : jsval) : jsval := if truthy a then a else b.

(** [!text || typeof text !== 'string' || text.trim() === ''], the test both
    POST and PUT apply to the text field. *)
Definition text_rejected (text : jsval) : bool :=
  negb (truthy text)
  || negb (typeof_string text)
  || match text with
     | JsString s => trim s =? ""
     | _ => false
     end.

(** ** JSON values and objects

    What [JSON.parse] returns and [res.json] sends.  A number keeps the
    literal it was written with.  An object is the list of its own
    properties in creation order. *)
#[warnings="-register-all"]
Inductive json :=
| JNull
| JBool (b : bool)
| JNumber (literal : string)
| JString (s : string)
| JArray (items : list json)
| JObject (props : list (string * json)).

Definition object : Type := list (string * json).

(** ** The entry list of a [Map] with string keys

    [set] on a key already there replaces the value where it stands, on a
    new key it appends; [delete] removes the entry of the key. *)
Module JsMap.

Definition t (V : Type) : Type := list (string * V).

Definition empty {V : Type} : t V := [].

Fixpoint get {V : Type} (k : string) (m : t V) : option V :=
  match m with
  | [] => None
  | (k', v) :: m' => if k =? k' then Some v else get k m'
  end.

Definition has {V : Type} (k : string) (m : t V) : bool :=
  match get k m with
  | Some _ => true
  | None => false
  end.

Fixpoint set {V : Type} (k : string) (v : V) (m : t V) : t V :=
  match m with
  | [] => [(k, v)]
  | (k', v') :: m' =>
      if k =? k' then (k', v) :: m' else (k', v') :: set k v m'
  end.

Fixpoint delete {V : Type} (k : string) (m : t V) : t V :=
  match m with
  | [] => []
  | (k', v') :: m' => if k =? k' then m' else (k', v') :: delete k m'
  end.

Definition keys {V : Type} (m : t V) : list string := map fst m.

Definition values {V : Type} (m : t V) : list V := map snd m.

End JsMap.

(** [o.name]: the property, or undefined. *)
Definition prop (name : string) (o : object) : option json := JsMap.get name o.

(** ** [JSON.parse]

    A lexer that reads one byte at a time, then a pushdown parser over the
    tokens; both are structural, so the parse of every text ends. *)

Inductive token :=
| TPunct (c : ascii)
| TValue (v : json).

Inductive num_state :=
| NMinus | NZero | NInt | NDot | NFrac | NExp | NExpSign | NExpInt.

Definition is_digit (c : ascii) : bool :=
  let n := N_of_ascii c in ((48 <=? n) && (n <=? 57))%N.

Definition is_exp (c : ascii) : bool :=
  Ascii.eqb c "e" || Ascii.eqb c "E".

(** The number grammar of JSON: an optional minus sign; a zero, or a digit
    from 1 to 9 and then any digits; optionally a point and one digit or
    more; optionally e or E, a sign or none, and one digit or more. *)
Definition num_step (st : num_state) (c : ascii) : option num_state :=
  match st with
  | NMinus =>
      if Ascii.eqb c "0" then Some NZero
      else if is_digit c then Some NInt else None
  | NZero =>
      if Ascii.eqb c "." then Some NDot
      else if is_exp c then Some NExp else None
  | NInt =>
      if is_digit c then Some NInt
      else if Ascii.eqb c "." then Some NDot
      else if is_exp c then Some NExp else None
  | NDot => if is_digit c then Some NFrac else None
  | NFrac =>
      if is_digit c then Some NFrac
      else if is_exp c then Some NExp else None
  | NExp =>
      if Ascii.eqb c "+" || Ascii.eqb c "-" then Some NExpSign
      else if is_digit c then Some NExpInt else None
  | NExpSign => if is_digit c then Some NExpInt else None
  | NExpInt => if is_digit c then Some NExpInt else None
  end.

Definition num_final (st : num_state) : bool :=
  match st with
  | NZero | NInt | NFrac | NExpInt => true
  | _ => false
  end.

Definition hex_value (c : ascii) : option N :=
  let n := N_of_ascii c in
  if ((48 <=? n) && (n <=? 57))%N then Some (n - 48)%N
  else if ((65 <=? n) && (n <=? 70))%N then Some (n - 55)%N
  else if ((97 <=? n) && (n <=? 102))%N then Some (n - 87)%N
  else None.

(** The UTF-8 bytes of the code unit of a [\uXXXX] escape, pushed on a
    reversed string.  (Two escapes that form a surrogate pair are encoded one
    by one.) *)
Definition push_code_unit (n : N) (seen : string) : string :=
  if (n <? 128)%N then String (ascii_of_N n) seen
  else if (n <? 2048)%N then
    String (ascii_of_N (128 + n mod 64)) (String (ascii_of_N (192 + n / 64)) seen)
  else
    String (ascii_of_N (128 + n mod 64))
      (String (ascii_of_N (128 + (n / 64) mod 64))
         (String (ascii_of_N (224 + n / 4096)) seen)).

(** Where the lexer stands; the strings it accumulates are reversed. *)
Inductive lex_state :=
| LStart
| LWord (rest : string) (v : json)
| LNum (st : num_state) (seen : string)
| LStr (seen : string)
| LEsc (seen : string)
| LHex (todo : nat) (code : N) (seen : string).

Definition is_json_space (c : ascii) : bool :=
  let n := N_of_ascii c in ((n =? 32) || (n =? 9) || (n =? 10) || (n =? 13))%N.

Definition is_punct (c : ascii) : bool :=
  Ascii.eqb c "{" || Ascii.eqb c "}" || Ascii.eqb c "[" || Ascii.eqb c "]"
  || Ascii.eqb c ":" || Ascii.eqb c ",".

Definition quote_char : ascii := ascii_of_nat 34.

Definition lex_start (c : ascii) (out : list token)
  : option (lex_state * list token) :=
  if is_json_space c then Some (LStart, out)
  else if is_punct c then Some (LStart, TPunct c :: out)
  else if Ascii.eqb c quote_char then Some (LStr "", out)
  else if Ascii.eqb c "-" then Some (LNum NMinus (String c ""), out)
  else if Ascii.eqb c "0" then Some (LNum NZero (String c ""), out)
  else if is_digit c then Some (LNum NInt (String c ""), out)
  else if Ascii.eqb c "t" then Some (LWord "rue" (JBool true), out)
  else if Ascii.eqb c "f" then Some (LWord "alse" (JBool false), out)
  else if Ascii.eqb c "n" then Some (LWord "ull" JNull, out)
  else None.

Definition lex_escape (c : ascii) (seen : string) : option lex_state :=
  if Ascii.eqb c quote_char || Ascii.eqb c "\" || Ascii.eqb c "/"
  then Some (LStr (String c seen))
  else if Ascii.eqb c "b" then Some (LStr (String (ascii_of_nat 8) seen))
  else if Ascii.eqb c "f" then Some (LStr (String (ascii_of_nat 12) seen))
  else if Ascii.eqb c "n" then Some (LStr (String (ascii_of_nat 10) seen))
  else if Ascii.eqb c "r" then Some (LStr (String (ascii_of_nat 13) seen))
  else if Ascii.eqb c "t" then Some (LStr (String (ascii_of_nat 9) seen))
  else if Ascii.eqb c "u" then Some (LHex 4 0 seen)
  else None.

Definition lex_step (st : lex_state) (c : ascii) (out : list token)
  : option (lex_state * list token) :=
  match st with
  | LStart => lex_start c out
  | LWord EmptyString _ => None
  | LWord (String e rest) v =>
      if Ascii.eqb c e then
        match rest with
        | EmptyString => Some (LStart, TValue v :: out)
        | _ => Some (LWord rest v, out)
        end
      else None
  | LNum ns seen =>
      match num_step ns c with
      | Some ns' => Some (LNum ns' (String c seen), out)
      | None =>
          if num_final ns
          then lex_start c (TValue (JNumber (string_rev seen)) :: out)
          else None
      end
  | LStr seen =>
      if Ascii.eqb c quote_char
      then Some (LStart, TValue (JString (string_rev seen)) :: out)
      else if Ascii.eqb c "\" then Some (LEsc seen, out)
      else if (N_of_ascii c <? 32)%N then None
      else Some (LStr (String c seen), out)
  | LEsc seen =>
      match lex_escape c seen with
      | Some st' => Some (st', out)
      | None => None
      end
  | LHex todo code seen =>
      match hex_value c with
      | None => None
      | Some d =>
          let code' := (16 * code + d)%N in
          match todo with
          | S (S n) => Some (LHex (S n) code' seen, out)
          | _ => Some (LStr (push_code_unit code' seen), out)
          end
      end
  end.

Fixpoint lex (st : lex_state) (s : string) (out : list token)
  : option (list token) :=
  match s with
  | EmptyString =>
      match st with
      | LStart => Some (rev out)
      | LNum ns seen =>
          if num_final ns
          then Some (rev (TValue (JNumber (string_rev seen)) :: out))
          else None
      | _ => None
      end
  | String c s' =>
      match lex_step st c out with
      | Some (st', out') => lex st' s' out'
      | None => None
      end
  end.

(** A container being filled: an array with its items so far (reversed), or
    an object with its properties so far and the key that awaits its value. *)
Inductive frame :=
| FArray (items : list json)
| FObject (props : object) (key : option string).

Inductive parse_state :=
| PValue
| PArrayFirst
| PObjectFirst
| PKey
| PColon
| PNext
| PDone (v : json).

(** A finished value goes to the innermost open container, or is the
    result.  A key written twice keeps its place and takes the last value. *)
Definition deliver (v : json) (stack : list frame)
  : option (list frame * parse_state) :=
  match stack with
  | [] => Some ([], PDone v)
  | FArray items :: k => Some (FArray (v :: items) :: k, PNext)
  | FObject props (Some key) :: k =>
      Some (FObject (JsMap.set key v props) None :: k, PNext)
  | FObject _ None :: _ => None
  end.

Definition parse_value (tok : token) (stack : list frame)
  : option (list frame * parse_state) :=
  match tok with
  | TValue v => deliver v stack
  | TPunct c =>
      if Ascii.eqb c "[" then Some (FArray [] :: stack, PArrayFirst)
      else if Ascii.eqb c "{" then Some (FObject [] None :: stack, PObjectFirst)
      else None
  end.

Definition parse_key (tok : token) (stack : list frame)
  : option (list frame * parse_state) :=
  match tok, stack with
  | TValue (JString key), FObject props None :: k =>
      Some (FObject props (Some key) :: k, PColon)
  | _, _ => None
  end.

Definition parse_close (c : ascii) (stack : list frame)
  : option (list frame * parse_state) :=
  match stack with
  | FArray items :: k =>
      if Ascii.eqb c "]" then deliver (JArray (rev items)) k else None
  | FObject props None :: k =>
      if Ascii.eqb c "}" then deliver (JObject props) k else None
  | _ => None
  end.

Definition parse_step (st : parse_state) (tok : token) (stack : list frame)
  : option (list frame * parse_state) :=
  match st with
  | PValue => parse_value tok stack
  | PArrayFirst =>
      match tok with
      | TPunct "]" => parse_close "]" stack
      | _ => parse_value tok stack
      end
  | PObjectFirst =>
      match tok with
      | TPunct "}" => parse_close "}" stack
      | _ => parse_key tok stack
      end
  | PKey => parse_key tok stack
  | PColon =>
      match tok with
      | TPunct ":" => Some (stack, PValue)
      | _ => None
      end
  | PNext =>
      match tok, stack with
      | TPunct ",", FArray _ :: _ => Some (stack, PValue)
      | TPunct ",", FObject _ None :: _ => Some (stack, PKey)
      | TPunct c, _ => parse_close c stack
      | TValue _, _ => None
      end
  | PDone _ => None
  end.

Fixpoint parse_tokens (toks : list token) (stack : list frame)
  (st : parse_state) : option json :=
  match toks with
  | [] =>
      match st, stack with
      | PDone v, [] => Some v
      | _, _ => None
      end
  | tok :: toks' =>
      match parse_step st tok stack with
      | Some (stack', st') => parse_tokens toks' stack' st'
      | None => None
      end
  end.

(** [JSON.parse(text)]: the value, or [None] where the engine throws a
    SyntaxError. *)
Definition JSON_parse (text : string) : option json :=
  match lex LStart text [] with
  | Some toks => parse_tokens toks [] PValue
  | None => None
  end.

(** ** [randomUUID]

    A version 4 UUID of RFC 4122 from 128 random bits: sixteen bytes, the
    version and variant bits forced, written as lower-case hexadecimal in
    groups of 4, 2, 2, 2 and 6 bytes. *)

Definition hex_digit (n : N) : ascii :=
  let d := (n mod 16)%N in
  if (d <? 10)%N then ascii_of_N (48 + d) else ascii_of_N (87 + d).

Definition hex_byte (b : N) : string :=
  String (hex_digit (b / 16)) (String (hex_digit b) "").

Definition uuid_byte (bits : N) (i : N) : N :=
  let b := (N.shiftr bits (8 * (15 - i)) mod 256)%N in
  if (i =? 6)%N then N.lor (N.land b 15) 64
  else if (i =? 8)%N then N.lor (N.land b 63) 128
  else b.

Fixpoint hex_bytes (bits : N) (first : N) (count : nat) : string :=
  match count with
  | O => ""
  | S n => hex_byte (uuid_byte bits first) ++ hex_bytes bits (first + 1) n
  end.

Definition randomUUID (bits : N) : string :=
  hex_bytes bits 0 4 ++ "-" ++ hex_bytes bits 4 2 ++ "-" ++ hex_bytes bits 6 2
  ++ "-" ++ hex_bytes bits 8 2 ++ "-" ++ hex_bytes bits 10 6.

(** ** The provider and the rest of the environment *)

(** The two types of the provider's SDK that the handlers touch: the
    argument of [ai.models.generateContent], and its response, whose [text]
    may be undefined. *)
Module GenAI.

Record GenerateContentParameters := {
  model : string;
  contents : string;
  responseMimeType : string;
  responseSchema : json
}.

Record GenerateContentResponse := { text : option string }.

End GenAI.

(** What a [throw] carries and a [catch] tells apart with
    [error instanceof Error]. *)
Inductive thrown :=
| Error (message : string)
| NotAnError.

Inductive settled (A : Type) :=
| Fulfilled (a : A)
| Rejected (e : thrown).
Arguments Fulfilled {A} a.
Arguments Rejected {A} e.

Record env := {
  (** process.env.GEMINI_API_KEY *)
  GEMINI_API_KEY : option string;
  (** the provider: what the awaited call settles to *)
  provider : GenAI.GenerateContentParameters -> settled GenAI.GenerateContentResponse;
  (** the random bits [randomUUID] draws *)
  random_bits : N;
  (** [new Date().toISOString()] *)
  now : string;
  (** the message of the SyntaxError the engine throws for a text *)
  syntax_error_message : string -> string
}.

Definition key_configured (e : env) : bool :=
  match GEMINI_API_KEY e with
  | Some k => negb (k =? "")
  | None => false
  end.

Definition nl : string := byte_string [10].

Definition triple_quote : string := dquote ++ dquote ++ dquote.

(** The template literal both handlers pass as [contents]. *)
Definition prompt (text : string) : string :=
  "Lütfen aşağıdaki Türkçe metni analiz et. Metni özetle, temel fikirleri maddeler halinde belirt, genel duygu tonunu değerlendir ve metni daha akıcı bir Türkçeyle yeniden yaz. "
  ++ nl ++ nl ++ "METİN:" ++ nl ++ triple_quote ++ nl ++ text ++ nl
  ++ triple_quote.

Definition schema_string (description : option string) : json :=
  JObject
    (("type", JString "STRING")
     :: match description with
        | Some d => [("description", JString d)]
        | None => []
        end).

Definition schema_array (description : option string) : json :=
  JObject
    (("type", JString "ARRAY")
     :: match description with
        | Some d => [("description", JString d)]
        | None => []
        end
     ++ [("items", JObject [("type", JString "STRING")])]).

Definition required_fields : json :=
  JArray
    [JString "ozet"; JString "temelFikirler"; JString "duyguTonu";
     JString "yenidenYazilmisMetin"].

(** [analysisSchema] of the POST handler. *)
Definition post_schema : json :=
  JObject
    [("type", JString "OBJECT");
     ("properties",
      JObject
        [("ozet",
          schema_string (Some "Metnin 2-3 cümlelik kısa ve anlamlı bir özeti."));
         ("temelFikirler",
          schema_array
            (Some "Metindeki en önemli 3-5 ana fikri listeleyen maddeler."));
         ("duyguTonu",
          schema_string
            (Some "Metnin genel duygu tonu. Sadece 'Olumlu', 'Olumsuz' veya 'Nötr' kelimelerinden birini kullan."));
         ("yenidenYazilmisMetin",
          schema_string
            (Some "Metnin dilbilgisi ve anlam bütünlüğü korunarak daha akıcı ve akademik bir Türkçe ile yeniden yazılmış hali."))]);
     ("required", required_fields)].

(** [analysisSchema] of the PUT handler: the same without descriptions. *)
Definition put_schema : json :=
  JObject
    [("type", JString "OBJECT");
     ("properties",
      JObject
        [("ozet", schema_string None);
         ("temelFikirler", schema_array None);
         ("duyguTonu", schema_string None);
         ("yenidenYazilmisMetin", schema_string None)]);
     ("required", required_fields)].

Definition generate_request (schema : json) (text : string)
  : GenAI.GenerateContentParameters :=
  {| GenAI.model := "gemini-2.5-flash";
     GenAI.contents := prompt text;
     GenAI.responseMimeType := "application/json";
     GenAI.responseSchema := schema |}.

(** ** The state of the process and the handler monad *)

Record world := {
  (** [const analyses = new Map<string, any>()]; every [set] of the program
      stores an object *)
  analyses : JsMap.t object;
  (** the calls made to the provider so far, the latest first *)
  outbound : list GenAI.GenerateContentParameters
}.

Definition initial : world := {| analyses := JsMap.empty; outbound := [] |}.

Inductive outcome (A : Type) :=
| Return (a : A)
| Throw (e : thrown).
Arguments Return {A} a.
Arguments Throw {A} e.

(** A piece of a handler: it may read and change the state, and ends with a
    value or a throw; what it changed before a throw stays changed. *)
Definition M (A : Type) : Type := world -> outcome A * world.

Definition ret {A : Type} (a : A) : M A := fun w => (Return a, w).

Definition throw {A : Type} (e : thrown) : M A := fun w => (Throw e, w).

Definition bind {A B : Type} (m : M A) (f : A -> M B) : M B :=
  fun w =>
    match m w with
    | (Return a, w') => f a w'
    | (Throw e, w') => (Throw e, w')
    end.

Definition try_catch {A : Type} (body : M A) (handler : thrown -> M A) : M A :=
  fun w =>
    match body w with
    | (Return a, w') => (Return a, w')
    | (Throw e, w') => handler e w'
    end.

Declare Scope handler_scope.
Delimit Scope handler_scope with handler.
Notation "x <- c1 ;; c2" := (bind c1 (fun x => c2))
  (at level 61, c1 at next level, right associativity) : handler_scope.
Notation "c1 ;; c2" := (bind c1 (fun _ => c2))
  (at level 61, right associativity) : handler_scope.
Open Scope handler_scope.

Definition with_analyses (m : JsMap.t object) (w : world) : world :=
  {| analyses := m; outbound := outbound w |}.

Definition with_call (params : GenAI.GenerateContentParameters) (w : world)
  : world :=
  {| analyses := analyses w; outbound := params :: outbound w |}.

Definition the_analyses : M (JsMap.t object) := fun w => (Return (analyses w), w).

Definition analyses_set (k : string) (v : object) : M unit :=
  fun w => (Return tt, with_analyses (JsMap.set k v (analyses w)) w).

Definition analyses_delete (k : string) : M unit :=
  fun w => (Return tt, with_analyses (JsMap.delete k (analyses w)) w).

(** [analyses.get(id)] and [analyses.has(id)] for any value of [id]: a key of
    the map is a string, and no other value is the same as a string. *)
Definition get_by (id : jsval) (m : JsMap.t object) : option object :=
  match id with
  | JsString k => JsMap.get k m
  | _ => None
  end.

Definition has_by (id : jsval) (m : JsMap.t object) : bool :=
  match id with
  | JsString k => JsMap.has k m
  | _ => false
  end.

(** [await ai.models.generateContent(params)]: the call is made, then the
    promise settles.  (Building the client with [new GoogleGenAI] before it
    has no effect that a handler can see.) *)
Definition generateContent (e : env) (params : GenAI.GenerateContentParameters)
  : M GenAI.GenerateContentResponse :=
  fun w =>
    match provider e params with
    | Fulfilled r => (Return r, with_call params w)
    | Rejected err => (Throw err, with_call params w)
    end.

(** The string [JSON.parse] reads for its argument: an undefined text is
    first turned into the string undefined, which is no JSON. *)
Definition source (t : option string) : string :=
  match t with
  | Some s => s
  | None => "undefined"
  end.

(** [JSON.parse(response.text)] *)
Definition parse_text (e : env) (t : option string) : M json :=
  match JSON_parse (source t) with
  | Some v => ret v
  | None => throw (Error (syntax_error_message e (source t)))
  end.

(** ** Responses *)

Inductive content :=
| Json (v : json)
| Sent (raw : option string)
| NoBody.

(** [headers] lists the headers the handler sets itself. *)
Record response := {
  status : N;
  headers : list (string * string);
  payload : content
}.

(** [res.status(code).json(v)] *)
Definition reply (code : N) (v : json) : response :=
  {| status := code; headers := []; payload := Json v |}.

Definition message_only (m : string) : json := JObject [("message", JString m)].

(** [error instanceof Error ? error.message : 'Unknown error'] *)
Definition message_of (err : thrown) : string :=
  match err with
  | Error m => m
  | NotAnError => "Unknown error"
  end.

Definition failure (m : string) (err : thrown) : json :=
  JObject [("message", JString m); ("error", JString (message_of err))].

Definition not_found (id : jsval) : response :=
  reply 404 (message_only ("Analysis with id " ++ to_string id ++ " not found.")).

Definition text_required : response :=
  reply 400
    (message_only
       (dquote ++ "text" ++ dquote ++ " field is required and cannot be empty.")).

Definition id_required : response :=
  reply 400 (message_only (dquote ++ "id" ++ dquote ++ " field is required.")).

Definition id_parameter_required : response :=
  reply 400
    (message_only
       (dquote ++ "id" ++ dquote ++ " parameter or body field is required.")).

(** [res.sendStatus(204)] *)
Definition no_content : response :=
  {| status := 204; headers := []; payload := NoBody |}.

Definition key_missing : response :=
  reply 500 (message_only "Internal Server Error: API key not configured.").

(** An object literal as [res.json] writes it: a property whose value is
    undefined is left out. *)
Fixpoint written (fields : list (string * option json)) : object :=
  match fields with
  | [] => []
  | (name, Some v) :: rest => (name, v) :: written rest
  | (_, None) :: rest => written rest
  end.

(** [{ id: a.id, timestamp: a.timestamp }] *)
Definition summary (a : object) : json :=
  JObject (written [("id", prop "id" a); ("timestamp", prop "timestamp" a)]).

(** [{ id, timestamp: new Date().toISOString(), analysis: parsed }] *)
Definition record (id timestamp : string) (parsed : json) : object :=
  [("id", JString id); ("timestamp", JString timestamp); ("analysis", parsed)].

(** ** The handlers of [/api/analyze] *)

(** [app.get('/api/analyze', ...)]; [id] is [req.query.id]. *)
Definition get_analyze (id : jsval) : M response :=
  if truthy id then
    m <- the_analyses;;
    match get_by id m with
    | None => ret (not_found id)
    | Some item => ret (reply 200 (JObject item))
    end
  else
    m <- the_analyses;;
    let list := map summary (JsMap.values m) in
    ret (reply 200 (JObject [("analyses", JArray list)])).

(** [app.post('/api/analyze', ...)]; [text] is [req.body.text]. *)
Definition post_analyze (e : env) (text : jsval) : M response :=
  try_catch
    (if negb (key_configured e) then ret key_missing
     else if text_rejected text then ret text_required
     else
       response <-
         generateContent e (generate_request post_schema (to_string text));;
       try_catch
         (let analysisId := randomUUID (random_bits e) in
          parsed <- parse_text e (GenAI.text response);;
          let fullResponse := record analysisId (now e) parsed in
          analyses_set analysisId fullResponse;;
          ret {| status := 201;
                 headers := [("Location", ("/api/analyze?id=" ++ analysisId)%string)];
                 payload := Json (JObject fullResponse) |})
         (fun _ =>
            ret {| status := 200;
                   headers := [("Content-Type", "application/json")];
                   payload := Sent (GenAI.text response) |}))
    (fun error => ret (reply 500 (failure "Failed to analyze text." error))).

(** [app.put('/api/analyze', ...)]; [id] and [text] are the fields of
    [req.body].  Past the [has] test [id] is a string, a key of the map. *)
Definition put_analyze (e : env) (id text : jsval) : M response :=
  try_catch
    (if negb (truthy id) then ret id_required
     else
       m <- the_analyses;;
       if negb (has_by id m) then ret (not_found id)
       else if text_rejected text then ret text_required
       else if negb (key_configured e) then ret key_missing
       else
         response <-
           generateContent e (generate_request put_schema (to_string text));;
         parsed <- parse_text e (GenAI.text response);;
         let updated := record (to_string id) (now e) parsed in
         analyses_set (to_string id) updated;;
         ret (reply 200 (JObject updated)))
    (fun error => ret (reply 500 (failure "Failed to update analysis." error))).

(** [req.body && req.body.id] *)
Definition body_id (body : option jsval) : jsval :=
  match body with
  | Some id => id
  | None => JsUndefined
  end.

(** [app.delete('/api/analyze', ...)]; [query_id] is [req.query.id], and
    [body] is [None] when [req.body] is undefined, else the [id] field of the
    body. *)
Definition delete_analyze (query_id : jsval) (body : option jsval)
  : M response :=
  try_catch
    (let id := js_or query_id (body_id body) in
     if negb (truthy id) then ret id_parameter_required
     else
       m <- the_analyses;;
       if negb (has_by id m) then ret (not_found id)
       else
         analyses_delete (to_string id);;
         ret no_content)
    (fun error => ret (reply 500 (failure "Failed to delete analysis." error))).

(** ** Requests and runs of the server *)

Inductive request :=
| GET (id : jsval)
| POST (text : jsval)
| PUT (id text : jsval)
| DELETE (query_id : jsval) (body : option jsval).

Definition handle (e : env) (r : request) : M response :=
  match r with
  | GET id => get_analyze id
  | POST text => post_analyze e text
  | PUT id text => put_analyze e id text
  | DELETE query_id body => delete_analyze query_id body
  end.

(** The state after the requests of [trace], each served in its own
    environment, one after the other. *)
Fixpoint run (trace : list (env * request)) (w : world) : world :=
  match trace with
  | [] => w
  | (e, r) :: rest => run rest (snd (handle e r w))
  end.

(** * The serverless function of [api/analyze.ts]

    One handler for the four methods, with no store behind it: GET, PUT
    and DELETE answer sample data. *)
Module Serverless.

(** The [id] field of a JSON body: absent, a string, or another value, known
    by its truthiness and by the JSON it is written back as. *)
Inductive id_field :=
| IdUndefined
| IdString (s : string)
| IdOther (truthy : bool) (value : json).

Definition id_truthy (id : id_field) : bool :=
  match id with
  | IdUndefined => false
  | IdString s => negb (s =? "")
  | IdOther t _ => t
  end.

(** The value of [id] as [JSON.stringify] writes it, if it writes it. *)
Definition id_json (id : id_field) : option json :=
  match id with
  | IdUndefined => None
  | IdString s => Some (JString s)
  | IdOther _ v => Some v
  end.

(** What the handlers read of a [Request]: the method, the [id] parameter of
    its URL ([searchParams.get('id')], null when there is none), and what
    the statement [const { id, text } = await req.json()] binds, or the
    error it throws (a body that is no JSON, or null). *)
Record Request := {
  method : string;
  search_id : option string;
  fields : settled (id_field * jsval)
}.

(** [if (id)] on a string or null *)
Definition given (id : option string) : option string :=
  match id with
  | Some s => if s =? "" then None else Some s
  | None => None
  end.

Definition json_type : string * string := ("Content-Type", "application/json").

(** [new Response(JSON.stringify(v), { status, headers })], the content type
    being the first header of each response. *)
Definition respond (code : N) (more : list (string * string)) (v : json)
  : response :=
  {| status := code; headers := json_type :: more; payload := Json v |}.

(** [error instanceof Error ? error.message : "An unknown error occurred."] *)
Definition failure (m : string) (err : thrown) : json :=
  JObject
    [("message", JString m);
     ("error",
      JString
        match err with
        | Error detail => detail
        | NotAnError => "An unknown error occurred."
        end)].

(** [await req.json()] and the destructuring of its value. *)
Definition read_fields (req : Request) : M (id_field * jsval) :=
  match fields req with
  | Fulfilled f => ret f
  | Rejected err => throw err
  end.

Definition sample_record (id timestamp : string) : json :=
  JObject
    [("id", JString id);
     ("timestamp", JString timestamp);
     ("analysis",
      JObject
        [("ozet", JString "Örnek özet");
         ("temelFikirler", JArray [JString "Fikir 1"; JString "Fikir 2"]);
         ("duyguTonu", JString "Nötr");
         ("yenidenYazilmisMetin", JString "Örnek metin")])].

(** [handleGet]; the list reads the clock twice, [later] is its second
    reading. *)
Definition handleGet (e : env) (later : string) (req : Request) : M response :=
  match given (search_id req) with
  | Some id => ret (respond 200 [] (sample_record id (now e)))
  | None =>
      ret (respond 200 []
             (JObject
                [("analyses",
                  JArray
                    [JObject [("id", JString "1"); ("timestamp", JString (now e))];
                     JObject [("id", JString "2"); ("timestamp", JString later)]])]))
  end.

(** [handlePost] *)
Definition handlePost (e : env) (req : Request) : M response :=
  if negb (key_configured e)
  then ret (respond 500 []
              (message_only "Internal Server Error: API key not configured."))
  else
    try_catch
      (f <- read_fields req;;
       let text := snd f in
       if text_rejected text
       then ret (respond 400 []
                   (message_only
                      (dquote ++ "text" ++ dquote
                       ++ " field is required and cannot be empty.")))
       else
         response <-
           generateContent e (generate_request post_schema (to_string text));;
         let analysisId := randomUUID (random_bits e) in
         parsedResponse <- parse_text e (GenAI.text response);;
         let fullResponse := record analysisId (now e) parsedResponse in
         ret (respond 201
                [("Location", ("/api/analyze?id=" ++ analysisId)%string)]
                (JObject fullResponse)))
      (fun error => ret (respond 500 [] (failure "Failed to analyze text." error))).

(** [handlePut] *)
Definition handlePut (e : env) (req : Request) : M response :=
  try_catch
    (f <- read_fields req;;
     let id := fst f in
     let text := snd f in
     if negb (id_truthy id)
     then ret (respond 400 []
                 (message_only (dquote ++ "id" ++ dquote ++ " field is required.")))
     else if text_rejected text
     then ret (respond 400 []
                 (message_only
                    (dquote ++ "text" ++ dquote
                     ++ " field is required and cannot be empty.")))
     else
       ret (respond 200 []
              (JObject
                 (written
                    [("id", id_json id);
                     ("message", Some (JString "Analysis updated successfully"));
                     ("timestamp", Some (JString (now e)))]))))
    (fun error => ret (respond 500 [] (failure "Failed to update analysis." error))).

(** [handleDelete] *)
Definition handleDelete (e : env) (req : Request) : M response :=
  match given (search_id req) with
  | None =>
      ret (respond 400 []
             (message_only (dquote ++ "id" ++ dquote ++ " parameter is required.")))
  | Some id =>
      ret (respond 200 []
             (JObject
                [("message",
                  JString ("Analysis with id " ++ id ++ " deleted successfully"));
                 ("timestamp", JString (now e))]))
  end.

(** [handler]: the switch on [req.method]. *)
Definition handler (e : env) (later : string) (req : Request) : M response :=
  if method req =? "GET" then handleGet e later req
  else if method req =? "POST" then handlePost e req
  else if method req =? "PUT" then handlePut e req
  else if method req =? "DELETE" then handleDelete e req
  else
    ret (respond 405 [("Allow", "GET, POST, PUT, DELETE")]
           (message_only "Method Not Allowed")).

End Serverless.

(** * The client: [analyzeText] of the service and [handleAnalysis] of the
    App *)
Module Client.

(** The body of a response once [response.json()] has parsed it: the value,
    and what [errorData?.message] is for it. *)
Record Body := { value : json; message : jsval }.

(** What [analyzeText] reads of the [Response] of [fetch]; [parsed] is what
    [response.json()] settles to. *)
Record Response := {
  ok : bool;
  status : N;
  parsed : settled Body
}.

(** A status inside a template literal. *)
Definition decimal (n : N) : string := NilZero.string_of_uint (N.to_uint n).

(** The [try] block of [analyzeText]: the result, or what it throws. *)
Definition attempt (fetched : settled Response) : settled json :=
  match fetched with
  | Rejected err => Rejected err
  | Fulfilled response =>
      if negb (ok response) then
        let seen :=
          match parsed response with
          | Fulfilled errorData => message errorData
          | Rejected _ => JsUndefined
          end in
        let errorMessage :=
          js_or seen
            (JsString ("API isteği durumu: " ++ decimal (status response))) in
        Rejected (Error (to_string errorMessage))
      else
        match parsed response with
        | Fulfilled result => Fulfilled (value result)
        | Rejected err => Rejected err
        end
  end.

(** [analyzeText(text)], [fetch] being what the POST of the text to
    [/api/analyze] settles to. *)
Definition analyzeText (fetch : string -> settled Response) (text : string)
  : settled json :=
  match attempt (fetch text) with
  | Fulfilled result => Fulfilled result
  | Rejected (Error m) =>
      Rejected (Error ("Metin analizi sırasında bir hata oluştu: " ++ m))
  | Rejected NotAnError =>
      Rejected (Error "Metin analizi sırasında bilinmeyen bir ağ hatası oluştu.")
  end.

End Client.

Module App.

(** The four pieces of state of the component. *)
Record State := {
  inputText : string;
  analysisResult : option json;
  isLoading : bool;
  error : option string
}.

(** A result that is null is no result. *)
Definition nullable (v : json) : option json :=
  match v with
  | JNull => None
  | _ => Some v
  end.

(** The state while the analysis is awaited. *)
Definition loading (s : State) : State :=
  {| inputText := inputText s;
     analysisResult := None;
     isLoading := true;
     error := None |}.

(** [handleAnalysis]: the state once the handler has run to its end,
    [analyze] being [analyzeText]. *)
Definition handleAnalysis (analyze : string -> settled json) (s : State)
  : State :=
  if trim (inputText s) =? "" then
    {| inputText := inputText s;
       analysisResult := analysisResult s;
       isLoading := isLoading s;
       error := Some "Lütfen analiz edilecek bir metin girin." |}
  else
    match analyze (inputText s) with
    | Fulfilled result =>
        {| inputText := inputText s;
           analysisResult := nullable result;
           isLoading := false;
           error := None |}
    | Rejected (Error m) =>
        {| inputText := inputText s;
           analysisResult := None;
           isLoading := false;
           error := Some m |}
    | Rejected NotAnError =>
        {| inputText := inputText s;
           analysisResult := None;
           isLoading := false;
           error := Some "Bilinmeyen bir hata oluştu." |}
    end.

End App.

(** ** The client in front of the server *)

(** [errorData?.message] for a parsed body, where it is undefined or a
    string; [None] for the values whose conversions are not modelled. *)
Definition message_seen (v : json) : option jsval :=
  match v with
  | JObject props =>
      match prop "message" props with
      | None => Some JsUndefined
      | Some (JString s) => Some (JsString s)
      | Some _ => None
      end
  | _ => Some JsUndefined
  end.

(** The [Response] that [fetch] gives the client for a response of the
    server: [ok] for a status from 200 to 299; the body that [res.json]
    wrote is read back as the same value, a body that was sent raw is
    parsed, and a response without body is no JSON.  [syntax_error] is the
    message of the SyntaxError of the browser. *)
Definition delivered (syntax_error : string -> string) (r : response)
  : option Client.Response :=
  let read (v : json) : option (settled Client.Body) :=
    match message_seen v with
    | Some m => Some (Fulfilled {| Client.value := v; Client.message := m |})
    | None => None
    end in
  let body : option (settled Client.Body) :=
    match payload r with
    | Json v => read v
    | Sent (Some raw) =>
        match JSON_parse raw with
        | Some v => read v
        | None => Some (Rejected (Error (syntax_error raw)))
        end
    | Sent None | NoBody => Some (Rejected (Error (syntax_error "")))
    end in
  match body with
  | Some b =>
      Some {| Client.ok := ((200 <=? status r) && (status r <=? 299))%N;
              Client.status := status r;
              Client.parsed := b |}
  | None => None
  end.

(** ** Notions the properties are stated with *)

(** An object made of the three fields of a record, its id being [k]. *)
Definition is_record (k : string) (o : object) : Prop :=
  exists timestamp analysis, o = record k timestamp analysis.

(** The shape of the store: no key twice, no empty key, and under each key
    a record of that id. *)
Definition store_ok (m : JsMap.t object) : Prop :=
  NoDup (JsMap.keys m)
  /\ Forall (fun kv => fst kv <> "" /\ is_record (fst kv) (snd kv)) m.

(** The Requester fails for a text: the credential is missing, the call is
    rejected, or the reply is no JSON. *)
Definition requester_fails (e : env) (schema : json) (text : string) : Prop :=
  key_configured e = false
  \/ match provider e (generate_request schema text) with
     | Rejected _ => True
     | Fulfilled r => JSON_parse (source (GenAI.text r)) = None
     end.

(** The entry of the list for a record: [{id, timestamp}]. *)
Definition entry (id timestamp : string) : json :=
  JObject [("id", JString id); ("timestamp", JString timestamp)].

(** The answer of Read without an id for a list of pairs of an id and a
    timestamp: [{analyses: [...]}] with status 200. *)
Definition listing (entries : list (string * string)) : response :=
  reply 200
    (JObject
       [("analyses", JArray (map (fun p => entry (fst p) (snd p)) entries))]).

(** ** Sample environments and states, for the examples *)

Definition quoted (s : string) : string := dquote ++ s ++ dquote.

(** A reply of the four fields the schema asks for. *)
Definition sample_reply : string :=
  "{" ++ quoted "ozet" ++ ":" ++ quoted "Kısa bir özet." ++ ","
  ++ quoted "temelFikirler" ++ ":[" ++ quoted "bir" ++ "," ++ quoted "iki"
  ++ "," ++ quoted "üç" ++ "],"
  ++ quoted "duyguTonu" ++ ":" ++ quoted "Nötr" ++ ","
  ++ quoted "yenidenYazilmisMetin" ++ ":" ++ quoted "Yeniden yazılmış metin."
  ++ "}".

Definition sample_analysis : json :=
  JObject
    [("ozet", JString "Kısa bir özet.");
     ("temelFikirler", JArray [JString "bir"; JString "iki"; JString "üç"]);
     ("duyguTonu", JString "Nötr");
     ("yenidenYazilmisMetin", JString "Yeniden yazılmış metin.")].

(** An environment whose provider answers every call with [answer]. *)
Definition sample_env (key : option string)
  (answer : settled GenAI.GenerateContentResponse) (bits : N) (time : string)
  : env :=
  {| GEMINI_API_KEY := key;
     provider := fun _ => answer;
     random_bits := bits;
     now := time;
     syntax_error_message :=
       fun s => (quoted s ++ " is not valid JSON")%string |}.

Definition working_env : env :=
  sample_env (Some "key") (Fulfilled {| GenAI.text := Some sample_reply |}) 7
    "2025-01-01T10:00:00.000Z".

(** The provider answers in prose, which is no JSON. *)
Definition prose_env : env :=
  sample_env (Some "key")
    (Fulfilled {| GenAI.text := Some "Merhaba, analiz burada." |}) 8
    "2025-01-01T11:00:00.000Z".

Definition failing_env : env :=
  sample_env (Some "key") (Rejected (Error "fetch failed")) 9
    "2025-01-01T12:00:00.000Z".

Definition keyless_env : env :=
  sample_env None (Fulfilled {| GenAI.text := Some sample_reply |}) 10
    "2025-01-01T13:00:00.000Z".

Definition sample_id : string := "00000000-0000-4000-8000-000000000007".

(** The state after one analysis was created. *)
Definition one_record : world :=
  run [(working_env, POST (JsString "Test cümlesi."))] initial.

(** ** Proof steps for the handlers *)

(** Unfolds a handler and the monad down to the tests it makes. *)
Ltac handler_steps :=
  cbv beta iota zeta delta
    [get_analyze post_analyze put_analyze delete_analyze
     try_catch bind ret throw the_analyses analyses_set analyses_delete
     generateContent parse_text negb].

(** Follows the branch that the equation [H] selects. *)
Ltac along H := rewrite H; handler_steps.

(** * Properties *)

(** ** Strings and [trim] *)

Lemma strip_prefix_length (p s r : string) :
  strip_prefix p s = Some r ->
  String.length s = String.length p + String.length r.
Proof.
  revert s; induction p as [|a p IH]; intros s H; simpl in *.
  - now inversion H.
  - destruct s as [|b s]; [discriminate|].
    destruct (Ascii.eqb a b); [|discriminate].
    simpl; f_equal; now apply IH.
Qed.

Lemma strip_any_length (ps : list string) (s r : string) :
  Forall (fun p => p <> "") ps ->
  strip_any ps s = Some r -> String.length r < String.length s.
Proof.
  induction 1 as [|p ps Hp _ IH]; simpl; [discriminate|].
  destruct (strip_prefix p s) as [r'|] eqn:E; [|exact IH].
  intros H; inversion H; subst r'.
  apply strip_prefix_length in E.
  destruct p; [contradiction|]; simpl in E; lia.
Qed.

(** The length of the string is fuel enough: [strip_all] stops only where no
    prefix is left to strip. *)
Lemma strip_all_done (ps : list string) (fuel : nat) (s : string) :
  Forall (fun p => p <> "") ps ->
  String.length s <= fuel ->
  strip_any ps (strip_all ps fuel s) = None.
Proof.
  intros Hps; revert s; induction fuel as [|n IH]; intros s Hlen; simpl.
  - destruct s; [|simpl in Hlen; lia].
    clear Hlen; induction Hps as [|p ps Hp _ IHps]; simpl; [reflexivity|].
    destruct p; [contradiction|exact IHps].
  - destruct (strip_any ps s) as [r|] eqn:E; [|exact E].
    apply IH. apply strip_any_length in E; [lia|exact Hps].
Qed.

Lemma length_append (s1 s2 : string) :
  String.length (s1 ++ s2) = String.length s1 + String.length s2.
Proof. induction s1 as [|c s1 IH]; simpl; [reflexivity|now rewrite IH]. Qed.

Lemma strip_prefix_app (p s : string) : strip_prefix p (p ++ s) = Some s.
Proof.
  induction p as [|a p IH]; simpl; [reflexivity|].
  now rewrite Ascii.eqb_refl.
Qed.

Lemma WhiteSpace_nonempty : Forall (fun p => p <> "") WhiteSpace.
Proof. repeat constructor; discriminate. Qed.

(** No white space code point starts with another one, so the first that
    matches is the one the text starts with. *)
Lemma strip_WhiteSpace (w s : string) :
  In w WhiteSpace -> strip_any WhiteSpace (w ++ s) = Some s.
Proof.
  intros H; simpl in H.
  repeat (destruct H as [<-|H]; [reflexivity|]).
  contradiction.
Qed.

Lemma whitespace_only_trimStart (s : string) :
  whitespace_only s -> trimStart s = "".
Proof.
  unfold trimStart.
  assert (G : forall fuel, whitespace_only s -> String.length s <= fuel ->
                           strip_all WhiteSpace fuel s = "").
  { intros fuel H; revert fuel.
    induction H as [|w s Hw Hs IH]; intros fuel Hlen.
    - destruct fuel; reflexivity.
    - assert (Hpos : 0 < String.length w).
      { pose proof WhiteSpace_nonempty as F.
        rewrite Forall_forall in F. specialize (F w Hw).
        destruct w; [contradiction|simpl; lia]. }
      rewrite length_append in Hlen.
      destruct fuel as [|fuel]; [lia|].
      cbn [strip_all]. rewrite (strip_WhiteSpace w s Hw). apply IH. lia. }
  intros H; now apply G.
Qed.

(** A text of white space only is empty once trimmed. *)
Lemma whitespace_only_trim (s : string) : whitespace_only s -> trim s = "".
Proof.
  intros H. unfold trim. now rewrite (whitespace_only_trimStart s H).
Qed.

Lemma whitespace_only_rejected (s : string) :
  whitespace_only s -> text_rejected (JsString s) = true.
Proof.
  intros H. unfold text_rejected.
  rewrite (whitespace_only_trim s H). simpl.
  now rewrite orb_true_r.
Qed.

(** A text that passes the test of the handlers is not empty once trimmed. *)
Lemma accepted_text (s : string) :
  text_rejected (JsString s) = false <-> trim s <> "".
Proof.
  unfold text_rejected; simpl. rewrite orb_false_r.
  split.
  - intros H E. rewrite E in H. simpl in H.
    now rewrite orb_true_r in H.
  - intros H. destruct (trim s =? "") eqn:E.
    + apply String.eqb_eq in E. contradiction.
    + destruct (s =? "") eqn:E'; [|reflexivity].
      apply String.eqb_eq in E'. subst s. now contradiction H.
Qed.

(** ** The entry list *)

Section JsMapFacts.

Context {V : Type}.
Implicit Types (m : JsMap.t V) (k : string) (v : V).

Lemma get_set_same k v m : JsMap.get k (JsMap.set k v m) = Some v.
Proof.
  induction m as [|[k' v'] m IH]; simpl.
  - now rewrite String.eqb_refl.
  - destruct (k =? k') eqn:E; simpl; rewrite E; [reflexivity|exact IH].
Qed.

Lemma get_set_other k k' v m :
  k' <> k -> JsMap.get k' (JsMap.set k v m) = JsMap.get k' m.
Proof.
  intros Hne. induction m as [|[k0 v0] m IH]; simpl.
  - apply String.eqb_neq in Hne. now rewrite Hne.
  - destruct (k =? k0) eqn:E; simpl.
    + apply String.eqb_eq in E; subst k0.
      apply String.eqb_neq in Hne. now rewrite Hne.
    + now rewrite IH.
Qed.

Lemma get_none k m : JsMap.get k m = None <-> ~ In k (JsMap.keys m).
Proof.
  induction m as [|[k' v'] m IH]; simpl.
  - tauto.
  - destruct (k =? k') eqn:E.
    + apply String.eqb_eq in E; subst k'.
      split; [discriminate|intros H; exfalso; apply H; now left].
    + apply String.eqb_neq in E. rewrite IH.
      split; [intros H [H'|H']; [now subst|contradiction]|tauto].
Qed.

Lemma has_true k m : JsMap.has k m = true <-> In k (JsMap.keys m).
Proof.
  unfold JsMap.has. pose proof (get_none k m) as G.
  destruct (JsMap.get k m).
  - split; [intros _|reflexivity].
    destruct (in_dec string_dec k (JsMap.keys m)) as [I|I]; [exact I|].
    apply G in I. discriminate.
  - split; [discriminate|]. intros I. exfalso. now apply G.
Qed.

Lemma has_false k m : JsMap.has k m = false <-> JsMap.get k m = None.
Proof.
  unfold JsMap.has. destruct (JsMap.get k m); split; congruence.
Qed.

(** A new key goes to the end of the entries. *)
Lemma set_absent k v m :
  JsMap.get k m = None -> JsMap.set k v m = m ++ [(k, v)].
Proof.
  induction m as [|[k' v'] m IH]; simpl; [reflexivity|].
  destruct (k =? k'); [discriminate|].
  intros H; now rewrite IH.
Qed.

(** A key already there keeps its place. *)
Lemma keys_set_present k v m :
  JsMap.has k m = true -> JsMap.keys (JsMap.set k v m) = JsMap.keys m.
Proof.
  unfold JsMap.has.
  induction m as [|[k' v'] m IH]; simpl; [discriminate|].
  destruct (k =? k') eqn:E; simpl; [reflexivity|].
  intros H; now rewrite IH.
Qed.

Lemma in_keys_set k k' v m :
  In k' (JsMap.keys (JsMap.set k v m)) <-> k' = k \/ In k' (JsMap.keys m).
Proof.
  induction m as [|[k0 v0] m IH]; simpl.
  - intuition.
  - destruct (k =? k0) eqn:E; simpl.
    + apply String.eqb_eq in E; subst k0. intuition.
    + rewrite IH. intuition.
Qed.

Lemma NoDup_set k v m :
  NoDup (JsMap.keys m) -> NoDup (JsMap.keys (JsMap.set k v m)).
Proof.
  induction m as [|[k0 v0] m IH]; simpl; intros H.
  - constructor; [intros []|constructor].
  - destruct (k =? k0) eqn:E; simpl; [exact H|].
    inversion H as [|? ? Hn Hd]; subst.
    constructor; [|now apply IH].
    rewrite in_keys_set. intros [->|I]; [|contradiction].
    now rewrite String.eqb_refl in E.
Qed.

(** [delete] takes the entry of the key out and leaves the others as they
    stand. *)
Lemma delete_filter k m :
  NoDup (JsMap.keys m) ->
  JsMap.delete k m = filter (fun kv => negb (k =? fst kv)) m.
Proof.
  induction m as [|[k0 v0] m IH]; simpl; intros H; [reflexivity|].
  inversion H as [|? ? Hn Hd]; subst.
  destruct (k =? k0) eqn:E; simpl.
  - apply String.eqb_eq in E; subst k0.
    clear IH H Hd. induction m as [|[k1 v1] m IH]; simpl; [reflexivity|].
    simpl in Hn. destruct (k =? k1) eqn:E1; simpl.
    + apply String.eqb_eq in E1. exfalso. apply Hn. now left.
    + f_equal. apply IH. intros I. apply Hn. now right.
  - f_equal. now apply IH.
Qed.

Lemma in_keys_delete k k' m :
  In k' (JsMap.keys (JsMap.delete k m)) -> In k' (JsMap.keys m).
Proof.
  induction m as [|[k0 v0] m IH]; simpl; [tauto|].
  destruct (k =? k0); simpl; intuition.
Qed.

Lemma NoDup_delete k m :
  NoDup (JsMap.keys m) -> NoDup (JsMap.keys (JsMap.delete k m)).
Proof.
  induction m as [|[k0 v0] m IH]; simpl; intros H; [constructor|].
  inversion H as [|? ? Hn Hd]; subst.
  destruct (k =? k0); simpl; [exact Hd|].
  constructor; [|now apply IH].
  intros I. apply Hn. now apply in_keys_delete in I.
Qed.

Lemma get_delete_same k m :
  NoDup (JsMap.keys m) -> JsMap.get k (JsMap.delete k m) = None.
Proof.
  induction m as [|[k0 v0] m IH]; simpl; intros H; [reflexivity|].
  inversion H as [|? ? Hn Hd]; subst.
  destruct (k =? k0) eqn:E; simpl.
  - apply String.eqb_eq in E; subst k0. now apply get_none.
  - rewrite E. now apply IH.
Qed.

Lemma get_delete_other k k' m :
  k' <> k -> JsMap.get k' (JsMap.delete k m) = JsMap.get k' m.
Proof.
  intros Hne. induction m as [|[k0 v0] m IH]; simpl; [reflexivity|].
  destruct (k =? k0) eqn:E; simpl.
  - apply String.eqb_eq in E; subst k0.
    apply String.eqb_neq in Hne. now rewrite Hne.
  - now rewrite IH.
Qed.

Lemma get_in k v m : JsMap.get k m = Some v -> In (k, v) m.
Proof.
  induction m as [|[k0 v0] m IH]; simpl; [discriminate|].
  destruct (k =? k0) eqn:E.
  - apply String.eqb_eq in E; subst k0. intros H; inversion H. now left.
  - intros H. right. now apply IH.
Qed.

End JsMapFacts.

(** ** [randomUUID] *)

Lemma randomUUID_nonempty (bits : N) : randomUUID bits <> "".
Proof. unfold randomUUID. cbn [hex_bytes hex_byte append]. discriminate. Qed.

Lemma randomUUID_truthy (bits : N) : truthy (JsString (randomUUID bits)) = true.
Proof.
  simpl. destruct (randomUUID bits =? "") eqn:E; [|reflexivity].
  apply String.eqb_eq in E. now apply randomUUID_nonempty in E.
Qed.

Lemma truthy_string (s : string) : truthy (JsString s) = true <-> s <> "".
Proof.
  simpl. destruct (s =? "") eqn:E; simpl.
  - apply String.eqb_eq in E. split; [discriminate|contradiction].
  - apply String.eqb_neq in E. tauto.
Qed.

(** ** The paths through the handlers

    One equation for each way a handler can go, under the conditions that
    select it. *)

Lemma get_one (id : jsval) (w : world) :
  truthy id = true ->
  get_analyze id w =
    (Return match get_by id (analyses w) with
            | Some item => reply 200 (JObject item)
            | None => not_found id
            end, w).
Proof.
  intros T. handler_steps. along T.
  now destruct (get_by id (analyses w)).
Qed.

Lemma get_all (id : jsval) (w : world) :
  truthy id = false ->
  get_analyze id w =
    (Return
       (reply 200
          (JObject [("analyses", JArray (map summary (JsMap.values (analyses w))))])),
     w).
Proof. intros T. handler_steps. along T. reflexivity. Qed.

Lemma post_key_missing (e : env) (text : jsval) (w : world) :
  key_configured e = false -> post_analyze e text w = (Return key_missing, w).
Proof. intros K. handler_steps. along K. reflexivity. Qed.

Lemma post_text_rejected (e : env) (text : jsval) (w : world) :
  key_configured e = true -> text_rejected text = true ->
  post_analyze e text w = (Return text_required, w).
Proof. intros K T. handler_steps. along K. along T. reflexivity. Qed.

Lemma post_provider_rejects (e : env) (text : jsval) (w : world) err :
  key_configured e = true -> text_rejected text = false ->
  provider e (generate_request post_schema (to_string text)) = Rejected err ->
  post_analyze e text w =
    (Return (reply 500 (failure "Failed to analyze text." err)),
     with_call (generate_request post_schema (to_string text)) w).
Proof. intros K T P. handler_steps. along K. along T. along P. reflexivity. Qed.

Lemma post_unparseable (e : env) (text : jsval) (w : world) r :
  key_configured e = true -> text_rejected text = false ->
  provider e (generate_request post_schema (to_string text)) = Fulfilled r ->
  JSON_parse (source (GenAI.text r)) = None ->
  post_analyze e text w =
    (Return {| status := 200;
               headers := [("Content-Type", "application/json")];
               payload := Sent (GenAI.text r) |},
     with_call (generate_request post_schema (to_string text)) w).
Proof.
  intros K T P J. handler_steps.
  along K. along T. along P. along J. reflexivity.
Qed.

Lemma post_created (e : env) (text : jsval) (w : world) r parsed :
  key_configured e = true -> text_rejected text = false ->
  provider e (generate_request post_schema (to_string text)) = Fulfilled r ->
  JSON_parse (source (GenAI.text r)) = Some parsed ->
  let id := randomUUID (random_bits e) in
  let fullResponse := record id (now e) parsed in
  post_analyze e text w =
    (Return {| status := 201;
               headers := [("Location", ("/api/analyze?id=" ++ id)%string)];
               payload := Json (JObject fullResponse) |},
     with_analyses (JsMap.set id fullResponse (analyses w))
       (with_call (generate_request post_schema (to_string text)) w)).
Proof.
  intros K T P J. handler_steps.
  along K. along T. along P. along J. reflexivity.
Qed.

Lemma put_id_missing (e : env) (id text : jsval) (w : world) :
  truthy id = false -> put_analyze e id text w = (Return id_required, w).
Proof. intros I. handler_steps. along I. reflexivity. Qed.

Lemma put_not_found (e : env) (id text : jsval) (w : world) :
  truthy id = true -> has_by id (analyses w) = false ->
  put_analyze e id text w = (Return (not_found id), w).
Proof. intros I H. handler_steps. along I. along H. reflexivity. Qed.

Lemma put_text_rejected (e : env) (id text : jsval) (w : world) :
  truthy id = true -> has_by id (analyses w) = true ->
  text_rejected text = true ->
  put_analyze e id text w = (Return text_required, w).
Proof. intros I H T. handler_steps. along I. along H. along T. reflexivity. Qed.

Lemma put_key_missing (e : env) (id text : jsval) (w : world) :
  truthy id = true -> has_by id (analyses w) = true ->
  text_rejected text = false -> key_configured e = false ->
  put_analyze e id text w = (Return key_missing, w).
Proof.
  intros I H T K. handler_steps.
  along I. along H. along T. along K. reflexivity.
Qed.

Lemma put_provider_rejects (e : env) (id text : jsval) (w : world) err :
  truthy id = true -> has_by id (analyses w) = true ->
  text_rejected text = false -> key_configured e = true ->
  provider e (generate_request put_schema (to_string text)) = Rejected err ->
  put_analyze e id text w =
    (Return (reply 500 (failure "Failed to update analysis." err)),
     with_call (generate_request put_schema (to_string text)) w).
Proof.
  intros I H T K P. handler_steps.
  along I. along H. along T. along K. along P. reflexivity.
Qed.

Lemma put_unparseable (e : env) (id text : jsval) (w : world) r :
  truthy id = true -> has_by id (analyses w) = true ->
  text_rejected text = false -> key_configured e = true ->
  provider e (generate_request put_schema (to_string text)) = Fulfilled r ->
  JSON_parse (source (GenAI.text r)) = None ->
  put_analyze e id text w =
    (Return
       (reply 500
          (failure "Failed to update analysis."
             (Error (syntax_error_message e (source (GenAI.text r)))))),
     with_call (generate_request put_schema (to_string text)) w).
Proof.
  intros I H T K P J. handler_steps.
  along I. along H. along T. along K. along P. along J. reflexivity.
Qed.

Lemma put_updated (e : env) (id text : jsval) (w : world) r parsed :
  truthy id = true -> has_by id (analyses w) = true ->
  text_rejected text = false -> key_configured e = true ->
  provider e (generate_request put_schema (to_string text)) = Fulfilled r ->
  JSON_parse (source (GenAI.text r)) = Some parsed ->
  let updated := record (to_string id) (now e) parsed in
  put_analyze e id text w =
    (Return (reply 200 (JObject updated)),
     with_analyses (JsMap.set (to_string id) updated (analyses w))
       (with_call (generate_request put_schema (to_string text)) w)).
Proof.
  intros I H T K P J. handler_steps.
  along I. along H. along T. along K. along P. along J. reflexivity.
Qed.

Lemma delete_id_missing (query_id : jsval) (body : option jsval) (w : world) :
  truthy (js_or query_id (body_id body)) = false ->
  delete_analyze query_id body w = (Return id_parameter_required, w).
Proof. intros I. handler_steps. along I. reflexivity. Qed.

Lemma delete_not_found (query_id : jsval) (body : option jsval) (w : world) :
  let id := js_or query_id (body_id body) in
  truthy id = true -> has_by id (analyses w) = false ->
  delete_analyze query_id body w = (Return (not_found id), w).
Proof.
  intros id I H. subst id.
  handler_steps. along I. along H. reflexivity.
Qed.

Lemma delete_done (query_id : jsval) (body : option jsval) (w : world) :
  let id := js_or query_id (body_id body) in
  truthy id = true -> has_by id (analyses w) = true ->
  delete_analyze query_id body w =
    (Return no_content,
     with_analyses (JsMap.delete (to_string id) (analyses w)) w).
Proof.
  intros id I H. subst id.
  handler_steps. along I. along H. reflexivity.
Qed.

(** ** The shape of the store *)

Lemma has_by_string (id : jsval) (m : JsMap.t object) :
  has_by id m = true -> exists k, id = JsString k /\ JsMap.has k m = true.
Proof.
  destruct id as [|k|t shown]; simpl; try discriminate.
  intros H. now exists k.
Qed.

Lemma store_ok_empty : store_ok JsMap.empty.
Proof. split; constructor. Qed.

Lemma store_ok_get (m : JsMap.t object) (k : string) (o : object) :
  store_ok m -> JsMap.get k m = Some o -> k <> "" /\ is_record k o.
Proof.
  intros [_ F] G. apply get_in in G.
  rewrite Forall_forall in F. exact (F (k, o) G).
Qed.

Lemma store_ok_has (m : JsMap.t object) (k : string) :
  store_ok m -> JsMap.has k m = true -> k <> "".
Proof.
  unfold JsMap.has. intros Hok H.
  destruct (JsMap.get k m) as [o|] eqn:G; [|discriminate].
  exact (proj1 (store_ok_get m k o Hok G)).
Qed.

Lemma store_ok_set (m : JsMap.t object) (k timestamp : string) (a : json) :
  store_ok m -> k <> "" -> store_ok (JsMap.set k (record k timestamp a) m).
Proof.
  intros [D F] Hk. split; [now apply NoDup_set|].
  clear D. induction F as [|[k0 v0] m H0 F IH]; simpl.
  - repeat constructor; [exact Hk|]. now exists timestamp, a.
  - destruct (k =? k0) eqn:E.
    + apply String.eqb_eq in E; subst k0.
      constructor; [|exact F]. split; [exact Hk|]. now exists timestamp, a.
    + constructor; [exact H0|exact IH].
Qed.

Lemma store_ok_delete (m : JsMap.t object) (k : string) :
  store_ok m -> store_ok (JsMap.delete k m).
Proof.
  intros [D F]. split; [now apply NoDup_delete|].
  clear D. induction F as [|[k0 v0] m H0 F IH]; simpl; [constructor|].
  destruct (k =? k0); [exact F|]. constructor; [exact H0|exact IH].
Qed.

(** What each handler does to the store. *)

Lemma get_world (id : jsval) (w : world) : snd (get_analyze id w) = w.
Proof.
  destruct (truthy id) eqn:T.
  - now rewrite get_one.
  - now rewrite get_all.
Qed.

Lemma post_world (e : env) (text : jsval) (w : world) :
  analyses (snd (post_analyze e text w)) = analyses w
  \/ exists a,
      let id := randomUUID (random_bits e) in
      analyses (snd (post_analyze e text w))
      = JsMap.set id (record id (now e) a) (analyses w).
Proof.
  destruct (key_configured e) eqn:K; [|left; now rewrite post_key_missing].
  destruct (text_rejected text) eqn:T; [left; now rewrite post_text_rejected|].
  destruct (provider e (generate_request post_schema (to_string text)))
    as [r|err] eqn:P;
    [|left; now rewrite (post_provider_rejects e text w err)].
  destruct (JSON_parse (source (GenAI.text r))) as [a|] eqn:J.
  - right. exists a. now rewrite (post_created e text w r a).
  - left. now rewrite (post_unparseable e text w r).
Qed.

Lemma put_world (e : env) (id text : jsval) (w : world) :
  analyses (snd (put_analyze e id text w)) = analyses w
  \/ exists k a,
      id = JsString k /\ JsMap.has k (analyses w) = true
      /\ analyses (snd (put_analyze e id text w))
         = JsMap.set k (record k (now e) a) (analyses w).
Proof.
  destruct (truthy id) eqn:I; [|left; now rewrite put_id_missing].
  destruct (has_by id (analyses w)) eqn:H; [|left; now rewrite put_not_found].
  destruct (text_rejected text) eqn:T; [left; now rewrite put_text_rejected|].
  destruct (key_configured e) eqn:K; [|left; now rewrite put_key_missing].
  destruct (provider e (generate_request put_schema (to_string text)))
    as [r|err] eqn:P;
    [|left; now rewrite (put_provider_rejects e id text w err)].
  destruct (JSON_parse (source (GenAI.text r))) as [a|] eqn:J.
  - right. destruct (has_by_string id _ H) as (k & -> & Hk).
    exists k, a. repeat split; [exact Hk|].
    now rewrite (put_updated e (JsString k) text w r a).
  - left. now rewrite (put_unparseable e id text w r).
Qed.

Lemma delete_world (query_id : jsval) (body : option jsval) (w : world) :
  analyses (snd (delete_analyze query_id body w)) = analyses w
  \/ exists k,
      analyses (snd (delete_analyze query_id body w))
      = JsMap.delete k (analyses w).
Proof.
  destruct (truthy (js_or query_id (body_id body))) eqn:I;
    [|left; now rewrite delete_id_missing].
  destruct (has_by (js_or query_id (body_id body)) (analyses w)) eqn:H.
  - right. exists (to_string (js_or query_id (body_id body))).
    now rewrite delete_done.
  - left. now rewrite delete_not_found.
Qed.

Lemma handle_store_ok (e : env) (r : request) (w : world) :
  store_ok (analyses w) -> store_ok (analyses (snd (handle e r w))).
Proof.
  intros Hok. destruct r as [id|text|id text|query_id body]; simpl.
  - now rewrite get_world.
  - destruct (post_world e text w) as [->|(a & ->)]; [exact Hok|].
    apply store_ok_set; [exact Hok|apply randomUUID_nonempty].
  - destruct (put_world e id text w) as [->|(k & a & _ & Hk & ->)];
      [exact Hok|].
    apply store_ok_set; [exact Hok|]. exact (store_ok_has _ k Hok Hk).
  - destruct (delete_world query_id body w) as [->|(k & ->)]; [exact Hok|].
    now apply store_ok_delete.
Qed.

Lemma run_store_ok (trace : list (env * request)) (w : world) :
  store_ok (analyses w) -> store_ok (analyses (run trace w)).
Proof.
  revert w; induction trace as [|[e r] trace IH]; intros w Hok; simpl.
  - exact Hok.
  - apply IH. now apply handle_store_ok.
Qed.


(** ** Create *)

(** C1, as the specification states it, fails: with a provider that
    answers in prose, Create of a valid text ends neither with 201 nor with
    a 500 error; the fallback of the POST handler answers 200. *)
Lemma create_outcome_counterexample :
  trim "Test cümlesi." <> ""
  /\ fst (post_analyze prose_env (JsString "Test cümlesi.") initial)
     = Return {| status := 200;
                 headers := [("Content-Type", "application/json")];
                 payload := Sent (Some "Merhaba, analiz burada.") |}
  /\ ~ (exists resp,
          fst (post_analyze prose_env (JsString "Test cümlesi.") initial)
          = Return resp
          /\ (status resp = 201%N \/ status resp = 500%N)).
Proof.
  split; [vm_compute; discriminate|].
  split; [vm_compute; reflexivity|].
  intros (resp & E & S). vm_compute in E. inversion E; subst resp.
  destruct S as [S|S]; discriminate S.
Qed.

(** C1, amended: for every text that is not empty once trimmed, and when
    [randomUUID] draws an id that is not yet a key of the store, Create
    ends in one of three ways: 201 with the new record, a Location header
    for its id and the record appended to the store; or 500 with a JSON
    error object and the store as it was; or, when the reply of the
    provider is no JSON, 200 with the raw reply and the store as it was. *)
Theorem create_outcomes (e : env) (text : string) (w : world) :
  trim text <> "" ->
  JsMap.has (randomUUID (random_bits e)) (analyses w) = false ->
  let id := randomUUID (random_bits e) in
  exists resp w',
    post_analyze e (JsString text) w = (Return resp, w')
    /\ ((exists parsed,
           status resp = 201%N
           /\ headers resp = [("Location", ("/api/analyze?id=" ++ id)%string)]
           /\ payload resp = Json (JObject (record id (now e) parsed))
           /\ analyses w' = analyses w ++ [(id, record id (now e) parsed)])
        \/ (status resp = 500%N
            /\ (exists v, payload resp = Json (JObject v))
            /\ analyses w' = analyses w)
        \/ (exists r,
              provider e (generate_request post_schema text) = Fulfilled r
              /\ JSON_parse (source (GenAI.text r)) = None
              /\ status resp = 200%N
              /\ payload resp = Sent (GenAI.text r)
              /\ analyses w' = analyses w)).
Proof.
  intros Htext Hfresh id.
  apply accepted_text in Htext.
  destruct (key_configured e) eqn:K.
  2:{ do 2 eexists. split; [now apply post_key_missing|].
      right; left. repeat split. now eexists. }
  destruct (provider e (generate_request post_schema text)) as [r|err] eqn:P.
  2:{ do 2 eexists.
      split; [now apply (post_provider_rejects e (JsString text) w err)|].
      right; left. repeat split. now eexists. }
  destruct (JSON_parse (source (GenAI.text r))) as [parsed|] eqn:J.
  - do 2 eexists.
    split; [now apply (post_created e (JsString text) w r parsed)|].
    left. exists parsed. repeat split.
    simpl. apply set_absent. now apply has_false.
  - do 2 eexists.
    split; [now apply (post_unparseable e (JsString text) w r)|].
    right; right. exists r. now repeat split.
Qed.

Lemma create_outcomes_witness :
  trim "Test cümlesi." <> ""
  /\ JsMap.has (randomUUID (random_bits working_env)) (analyses initial) = false
  /\ exists resp w',
      post_analyze working_env (JsString "Test cümlesi.") initial
      = (Return resp, w').
Proof.
  assert (H1 : trim "Test cümlesi." <> "") by (vm_compute; discriminate).
  assert (H2 : JsMap.has (randomUUID (random_bits working_env))
                 (analyses initial) = false) by reflexivity.
  split; [exact H1|]. split; [exact H2|].
  destruct (create_outcomes working_env "Test cümlesi." initial H1 H2)
    as (resp & w' & E & _).
  now exists resp, w'.
Defined.

(** C2, as the specification states it, fails: the reply of the provider
    is no JSON, and the caller of Create gets no 500 and no JSON error
    object, but the raw reply. *)
Lemma create_unparseable_counterexample :
  JSON_parse "Merhaba, analiz burada." = None
  /\ (exists resp,
        fst (post_analyze prose_env (JsString "Test cümlesi.") initial)
        = Return resp
        /\ status resp = 200%N
        /\ payload resp = Sent (Some "Merhaba, analiz burada."))
  /\ ~ (exists resp,
          fst (post_analyze prose_env (JsString "Test cümlesi.") initial)
          = Return resp
          /\ status resp = 500%N
          /\ exists v, payload resp = Json v).
Proof.
  split; [vm_compute; reflexivity|].
  split; [eexists; vm_compute; repeat split|].
  intros (resp & E & S & _). vm_compute in E. inversion E; subst resp.
  discriminate S.
Qed.

(** C2, amended: when the reply of the provider to a Create request is not
    parseable as JSON, no record is inserted and the store stays as it
    was, and the handler falls back to a 200 response whose body is the raw
    reply (not a 500 with a JSON error object). *)
Theorem create_unparseable_reply (e : env) (text : jsval) (w : world)
  (r : GenAI.GenerateContentResponse) :
  key_configured e = true ->
  text_rejected text = false ->
  provider e (generate_request post_schema (to_string text)) = Fulfilled r ->
  JSON_parse (source (GenAI.text r)) = None ->
  exists w',
    post_analyze e text w
    = (Return {| status := 200;
                 headers := [("Content-Type", "application/json")];
                 payload := Sent (GenAI.text r) |}, w')
    /\ analyses w' = analyses w.
Proof.
  intros K T P J. eexists.
  split; [now apply (post_unparseable e text w r)|reflexivity].
Qed.

Lemma create_unparseable_reply_witness :
  key_configured prose_env = true
  /\ text_rejected (JsString "Test cümlesi.") = false
  /\ JSON_parse "Merhaba, analiz burada." = None
  /\ exists w',
      post_analyze prose_env (JsString "Test cümlesi.") one_record
      = (Return {| status := 200;
                   headers := [("Content-Type", "application/json")];
                   payload := Sent (Some "Merhaba, analiz burada.") |}, w')
      /\ analyses w' = analyses one_record.
Proof.
  assert (K : key_configured prose_env = true) by reflexivity.
  assert (T : text_rejected (JsString "Test cümlesi.") = false)
    by (vm_compute; reflexivity).
  assert (J : JSON_parse "Merhaba, analiz burada." = None)
    by (vm_compute; reflexivity).
  repeat (split; [assumption|]).
  exact (create_unparseable_reply prose_env (JsString "Test cümlesi.")
           one_record {| GenAI.text := Some "Merhaba, analiz burada." |}
           K T eq_refl J).
Defined.

(** ** Validation of the text *)

(** C3, as the specification states it, fails: without the credential,
    Create of a text of blanks is answered 500, not 400. *)
Lemma blank_create_counterexample :
  whitespace_only "   "
  /\ key_configured keyless_env = false
  /\ fst (post_analyze keyless_env (JsString "   ") initial) = Return key_missing
  /\ status key_missing = 500%N
  /\ ~ (exists resp,
          fst (post_analyze keyless_env (JsString "   ") initial) = Return resp
          /\ status resp = 400%N).
Proof.
  split.
  { apply (ws_more " " "  "); [simpl; tauto|].
    apply (ws_more " " " "); [simpl; tauto|].
    apply (ws_more " " ""); [simpl; tauto|constructor]. }
  split; [reflexivity|]. split; [reflexivity|]. split; [reflexivity|].
  intros (resp & E & S). vm_compute in E. inversion E; subst resp.
  discriminate S.
Qed.

(** C3, amended: an empty or whitespace-only text gets the 400 of the text
    validation from Create when the credential is configured, and from
    Update when the id is in the store, whatever the credential; an Update
    without id gets the 400 of the id.  For every Create or Update request
    with such a text, whatever the credential and the id, no call goes out to
    the provider and the store stays as it was. *)
Theorem blank_text_rejected (e : env) (text : string) (w : world) :
  whitespace_only text ->
  (key_configured e = true ->
   post_analyze e (JsString text) w = (Return text_required, w))
  /\ (forall id,
        JsMap.has id (analyses w) = true -> id <> "" ->
        put_analyze e (JsString id) (JsString text) w = (Return text_required, w))
  /\ (forall id,
        truthy id = false ->
        put_analyze e id (JsString text) w = (Return id_required, w))
  /\ status text_required = 400%N
  /\ status id_required = 400%N
  /\ (exists resp, post_analyze e (JsString text) w = (Return resp, w))
  /\ (forall id, exists resp, put_analyze e id (JsString text) w = (Return resp, w)).
Proof.
  intros Hws. pose proof (whitespace_only_rejected text Hws) as T.
  split; [intros K; now apply post_text_rejected|].
  split.
  { intros id H Hid. apply put_text_rejected; [|exact H|exact T].
    now apply truthy_string. }
  split; [intros id I; now apply put_id_missing|].
  split; [reflexivity|]. split; [reflexivity|].
  split.
  - destruct (key_configured e) eqn:K.
    + eexists. now apply post_text_rejected.
    + eexists. now apply post_key_missing.
  - intros id. destruct (truthy id) eqn:I.
    + destruct (has_by id (analyses w)) eqn:H.
      * eexists. now apply put_text_rejected.
      * eexists. now apply put_not_found.
    + eexists. now apply put_id_missing.
Qed.

Lemma blank_text_rejected_witness :
  whitespace_only " "
  /\ post_analyze working_env (JsString " ") one_record
     = (Return text_required, one_record)
  /\ put_analyze keyless_env (JsString sample_id) (JsString " ") one_record
     = (Return text_required, one_record).
Proof.
  assert (Hws : whitespace_only " ").
  { apply (ws_more " " ""); [simpl; tauto|constructor]. }
  split; [exact Hws|].
  split.
  - apply (blank_text_rejected working_env " " one_record Hws). reflexivity.
  - apply (blank_text_rejected keyless_env " " one_record Hws).
    + vm_compute; reflexivity.
    + discriminate.
Defined.

(** ** Update *)

(** C4: for an id in the store, Update always answers; it answers 200
    whenever the Requester returns a value for an accepted text; and when
    it answers 200, the record under the id has the same id and the new
    analysis and timestamp, the keys and every other record are as before,
    and Read of the id returns the updated record. *)
Theorem update_frame (e : env) (id : string) (text : jsval) (w : world)
  (old : object) :
  store_ok (analyses w) ->
  JsMap.get id (analyses w) = Some old ->
  exists resp w',
    put_analyze e (JsString id) text w = (Return resp, w')
    /\ (text_rejected text = false -> key_configured e = true ->
        forall r parsed,
          provider e (generate_request put_schema (to_string text)) = Fulfilled r ->
          JSON_parse (source (GenAI.text r)) = Some parsed ->
          status resp = 200%N)
    /\ (status resp = 200%N ->
        exists timestamp0 analysis0 parsed,
          old = record id timestamp0 analysis0
          /\ payload resp = Json (JObject (record id (now e) parsed))
          /\ JsMap.get id (analyses w') = Some (record id (now e) parsed)
          /\ JsMap.keys (analyses w') = JsMap.keys (analyses w)
          /\ (forall k, k <> id ->
                JsMap.get k (analyses w') = JsMap.get k (analyses w))
          /\ get_analyze (JsString id) w'
             = (Return (reply 200 (JObject (record id (now e) parsed))), w')).
Proof.
  intros Hok Hget.
  destruct (store_ok_get _ _ _ Hok Hget) as [Hid (ts0 & a0 & Hold)].
  assert (I : truthy (JsString id) = true) by now apply truthy_string.
  assert (H : has_by (JsString id) (analyses w) = true).
  { simpl. unfold JsMap.has. now rewrite Hget. }
  destruct (text_rejected text) eqn:T.
  { do 2 eexists. split; [now apply put_text_rejected|].
    split; [discriminate|]. discriminate. }
  destruct (key_configured e) eqn:K.
  2:{ do 2 eexists. split; [now apply put_key_missing|].
      split; [discriminate|]. discriminate. }
  destruct (provider e (generate_request put_schema (to_string text)))
    as [r|err] eqn:P.
  2:{ do 2 eexists.
      split; [now apply (put_provider_rejects e (JsString id) text w err)|].
      split; [intros _ _ r parsed Hr; discriminate Hr|]. discriminate. }
  destruct (JSON_parse (source (GenAI.text r))) as [parsed|] eqn:J.
  2:{ do 2 eexists.
      split; [now apply (put_unparseable e (JsString id) text w r)|].
      split; [|discriminate].
      intros _ _ r' parsed' Hr Hp. inversion Hr; subst r'. congruence. }
  do 2 eexists.
  split; [now apply (put_updated e (JsString id) text w r parsed)|].
  split; [reflexivity|]. intros _.
  exists ts0, a0, parsed. simpl to_string.
  split; [exact Hold|]. split; [reflexivity|].
  cbn [analyses with_analyses].
  split; [apply get_set_same|].
  split; [now apply keys_set_present|].
  split; [intros k Hk; now apply get_set_other|].
  rewrite get_one by exact I. cbn [get_by analyses with_analyses].
  now rewrite get_set_same.
Qed.

Lemma update_frame_witness :
  store_ok (analyses one_record)
  /\ (exists old, JsMap.get sample_id (analyses one_record) = Some old)
  /\ exists resp w',
      put_analyze working_env (JsString sample_id) (JsString "Yeni metin.")
        one_record
      = (Return resp, w')
      /\ status resp = 200%N.
Proof.
  assert (Hok : store_ok (analyses one_record))
    by (apply run_store_ok, store_ok_empty).
  split; [exact Hok|].
  split; [eexists; vm_compute; reflexivity|].
  destruct (update_frame working_env sample_id (JsString "Yeni metin.")
              one_record (record sample_id "2025-01-01T10:00:00.000Z"
                            sample_analysis) Hok)
    as (resp & w' & E & S & _).
  - vm_compute; reflexivity.
  - exists resp, w'. split; [exact E|].
    apply (S (eq_refl : text_rejected (JsString "Yeni metin.") = false)
             eq_refl {| GenAI.text := Some sample_reply |} sample_analysis
             eq_refl).
    vm_compute; reflexivity.
Defined.

(** C5: for an id in the store and an accepted text, when the Requester
    fails (no credential, a rejected call, or a reply that is no JSON),
    Update answers 500 with a JSON error object, the store is as it was,
    and Read of the id returns the record as it was before. *)
Theorem update_failure_keeps_record (e : env) (id text : string) (w : world)
  (old : object) :
  store_ok (analyses w) ->
  JsMap.get id (analyses w) = Some old ->
  trim text <> "" ->
  requester_fails e put_schema text ->
  exists resp w',
    put_analyze e (JsString id) (JsString text) w = (Return resp, w')
    /\ status resp = 500%N
    /\ (exists v, payload resp = Json (JObject v))
    /\ analyses w' = analyses w
    /\ get_analyze (JsString id) w' = (Return (reply 200 (JObject old)), w').
Proof.
  intros Hok Hget Htext Hfail.
  apply accepted_text in Htext.
  destruct (store_ok_get _ _ _ Hok Hget) as [Hid _].
  assert (I : truthy (JsString id) = true) by now apply truthy_string.
  assert (H : has_by (JsString id) (analyses w) = true).
  { simpl. unfold JsMap.has. now rewrite Hget. }
  assert (R : forall w', analyses w' = analyses w ->
              get_analyze (JsString id) w'
              = (Return (reply 200 (JObject old)), w')).
  { intros w' Hw'. rewrite get_one by exact I. simpl get_by.
    now rewrite Hw', Hget. }
  destruct (key_configured e) eqn:K.
  2:{ do 2 eexists. split; [now apply put_key_missing|].
      repeat split; [now eexists|now apply R]. }
  destruct Hfail as [Hfail|Hfail]; [congruence|].
  destruct (provider e (generate_request put_schema text)) as [r|err] eqn:P.
  - do 2 eexists.
    split; [now apply (put_unparseable e (JsString id) (JsString text) w r)|].
    repeat split; [now eexists|now apply R].
  - do 2 eexists.
    split;
      [now apply (put_provider_rejects e (JsString id) (JsString text) w err)|].
    repeat split; [now eexists|now apply R].
Qed.

Lemma update_failure_keeps_record_witness :
  store_ok (analyses one_record)
  /\ trim "Yeni metin." <> ""
  /\ requester_fails failing_env put_schema "Yeni metin."
  /\ exists resp w',
      put_analyze failing_env (JsString sample_id) (JsString "Yeni metin.")
        one_record
      = (Return resp, w')
      /\ status resp = 500%N
      /\ analyses w' = analyses one_record.
Proof.
  assert (Hok : store_ok (analyses one_record))
    by (apply run_store_ok, store_ok_empty).
  assert (Ht : trim "Yeni metin." <> "") by (vm_compute; discriminate).
  assert (Hf : requester_fails failing_env put_schema "Yeni metin.")
    by (right; exact I).
  split; [exact Hok|]. split; [exact Ht|]. split; [exact Hf|].
  destruct (update_failure_keeps_record failing_env sample_id "Yeni metin."
              one_record (record sample_id "2025-01-01T10:00:00.000Z"
                            sample_analysis) Hok)
    as (resp & w' & E & S & _ & A & _); [vm_compute; reflexivity|exact Ht|exact Hf|].
  now exists resp, w'.
Defined.

(** ** Read *)

(** C6: for an id that is given (not the empty string), Read returns the
    stored record when the id is in the store, and otherwise a 404 whose
    message names the id; and after a Create that answered 201, Read of
    the id it returned yields the very record of the response, with the
    same analysis. *)
Theorem read_by_id (id : string) (w : world) :
  id <> "" ->
  (forall item,
     JsMap.get id (analyses w) = Some item ->
     get_analyze (JsString id) w = (Return (reply 200 (JObject item)), w))
  /\ (JsMap.get id (analyses w) = None ->
      get_analyze (JsString id) w
      = (Return
           (reply 404
              (message_only ("Analysis with id " ++ id ++ " not found."))), w))
  /\ (forall e text resp w',
        post_analyze e text w = (Return resp, w') ->
        status resp = 201%N ->
        exists parsed,
          let created := record (randomUUID (random_bits e)) (now e) parsed in
          payload resp = Json (JObject created)
          /\ prop "analysis" created = Some parsed
          /\ get_analyze (JsString (randomUUID (random_bits e))) w'
             = (Return (reply 200 (JObject created)), w')).
Proof.
  intros Hid.
  assert (I : truthy (JsString id) = true) by now apply truthy_string.
  split; [|split].
  - intros item G. rewrite get_one by exact I. simpl get_by. now rewrite G.
  - intros G. rewrite get_one by exact I. simpl get_by. now rewrite G.
  - intros e text resp w' E S.
    destruct (key_configured e) eqn:K.
    2:{ rewrite post_key_missing in E by exact K.
        inversion E; subst. discriminate S. }
    destruct (text_rejected text) eqn:T.
    { rewrite post_text_rejected in E by assumption.
      inversion E; subst. discriminate S. }
    destruct (provider e (generate_request post_schema (to_string text)))
      as [r|err] eqn:P.
    2:{ rewrite (post_provider_rejects e text w err) in E by assumption.
        inversion E; subst. discriminate S. }
    destruct (JSON_parse (source (GenAI.text r))) as [parsed|] eqn:J.
    2:{ rewrite (post_unparseable e text w r) in E by assumption.
        inversion E; subst. discriminate S. }
    rewrite (post_created e text w r parsed) in E by assumption.
    inversion E; subst. exists parsed.
    split; [reflexivity|]. split; [reflexivity|].
    rewrite get_one by apply randomUUID_truthy.
    cbn [get_by analyses with_analyses]. now rewrite get_set_same.
Qed.

Lemma read_by_id_witness :
  "doesnotexist" <> ""
  /\ get_analyze (JsString "doesnotexist") one_record
     = (Return
          (reply 404 (message_only "Analysis with id doesnotexist not found.")),
        one_record).
Proof.
  assert (H : "doesnotexist" <> "") by discriminate.
  split; [exact H|].
  apply (read_by_id "doesnotexist" one_record H). vm_compute; reflexivity.
Defined.

(** ** Delete *)

(** C7: Delete of an id in the store answers 204 and takes out the entry
    of that id and no other, so that Read of the id then answers 404;
    Delete without an id, in the query and in the body, answers 400; and
    Delete of an id that is not in the store answers 404 and changes
    nothing. *)
Theorem delete_cases (query_id : jsval) (body : option jsval) (w : world) :
  store_ok (analyses w) ->
  let id := js_or query_id (body_id body) in
  (truthy id = false ->
   delete_analyze query_id body w = (Return id_parameter_required, w)
   /\ status id_parameter_required = 400%N)
  /\ delete_analyze JsUndefined None w = (Return id_parameter_required, w)
  /\ delete_analyze JsUndefined (Some JsUndefined) w
     = (Return id_parameter_required, w)
  /\ (forall k,
        id = JsString k -> k <> "" -> JsMap.get k (analyses w) = None ->
        delete_analyze query_id body w = (Return (not_found id), w)
        /\ status (not_found id) = 404%N)
  /\ (forall k,
        id = JsString k -> JsMap.has k (analyses w) = true ->
        exists w',
          delete_analyze query_id body w = (Return no_content, w')
          /\ status no_content = 204%N
          /\ analyses w' = filter (fun kv => negb (k =? fst kv)) (analyses w)
          /\ JsMap.get k (analyses w') = None
          /\ (forall k', k' <> k ->
                JsMap.get k' (analyses w') = JsMap.get k' (analyses w))
          /\ get_analyze (JsString k) w' = (Return (not_found (JsString k)), w')
          /\ status (not_found (JsString k)) = 404%N).
Proof.
  intros Hok id.
  split; [intros I; split; [now apply delete_id_missing|reflexivity]|].
  split; [now apply delete_id_missing|].
  split; [now apply delete_id_missing|].
  split.
  - intros k Hk Hne G. split; [|reflexivity].
    apply delete_not_found; fold id; rewrite Hk.
    + now apply truthy_string.
    + simpl. now apply has_false.
  - intros k Hk H.
    assert (Hne : k <> "") by exact (store_ok_has _ k Hok H).
    assert (I : truthy (JsString k) = true) by now apply truthy_string.
    eexists. split.
    { apply delete_done; fold id; rewrite Hk; [exact I|exact H]. }
    fold id. rewrite Hk. cbn [to_string analyses with_analyses].
    destruct Hok as [D _].
    split; [reflexivity|].
    split; [now apply delete_filter|].
    split; [now apply get_delete_same|].
    split; [intros k' Hk'; now apply get_delete_other|].
    split; [|reflexivity].
    rewrite get_one by exact I. cbn [get_by analyses with_analyses].
    now rewrite get_delete_same.
Qed.

Lemma delete_cases_witness :
  store_ok (analyses one_record)
  /\ exists w',
      delete_analyze (JsString sample_id) None one_record
      = (Return no_content, w')
      /\ analyses w' = [].
Proof.
  assert (Hok : store_ok (analyses one_record))
    by (apply run_store_ok, store_ok_empty).
  split; [exact Hok|].
  destruct (delete_cases (JsString sample_id) None one_record Hok)
    as (_ & _ & _ & _ & H).
  destruct (H sample_id eq_refl eq_refl) as (w' & E & _ & A & _).
  exists w'. split; [exact E|]. rewrite A. reflexivity.
Defined.

(** ** The list of analyses *)

Lemma summary_record (k timestamp : string) (a : json) :
  summary (record k timestamp a) = entry k timestamp.
Proof. reflexivity. Qed.

Lemma summaries (m : JsMap.t object) :
  Forall (fun kv => fst kv <> "" /\ is_record (fst kv) (snd kv)) m ->
  exists entries : list (string * string),
    map summary (JsMap.values m) = map (fun p => entry (fst p) (snd p)) entries
    /\ Forall2
         (fun p kv =>
            fst kv = fst p /\ exists a, snd kv = record (fst p) (snd p) a)
         entries m.
Proof.
  induction 1 as [|[k o] m [_ (ts & a & Ho)] _ (entries & E & F)].
  - exists []. split; constructor.
  - simpl in Ho. subst o. exists ((k, ts) :: entries). split.
    + simpl. now rewrite E.
    + constructor; [|exact F]. simpl. split; [reflexivity|now exists a].
Qed.

Lemma Forall2_keys (entries : list (string * string)) (m : JsMap.t object) :
  Forall2
    (fun p kv => fst kv = fst p /\ exists a, snd kv = record (fst p) (snd p) a)
    entries m ->
  map fst entries = JsMap.keys m.
Proof.
  induction 1 as [|p kv entries m [E _] _ IH]; simpl; [reflexivity|].
  now rewrite E, IH.
Qed.

(** A Create that answered 201 stored the record of its response under
    the id that [randomUUID] drew. *)
Lemma post_created_inv (e : env) (text : jsval) (w w' : world)
  (resp : response) :
  post_analyze e text w = (Return resp, w') ->
  status resp = 201%N ->
  exists parsed,
    let id := randomUUID (random_bits e) in
    payload resp = Json (JObject (record id (now e) parsed))
    /\ analyses w' = JsMap.set id (record id (now e) parsed) (analyses w).
Proof.
  intros E S.
  destruct (key_configured e) eqn:K.
  2:{ rewrite post_key_missing in E by exact K.
      inversion E; subst. discriminate S. }
  destruct (text_rejected text) eqn:T.
  { rewrite post_text_rejected in E by assumption.
    inversion E; subst. discriminate S. }
  destruct (provider e (generate_request post_schema (to_string text)))
    as [r|err] eqn:P.
  2:{ rewrite (post_provider_rejects e text w err) in E by assumption.
      inversion E; subst. discriminate S. }
  destruct (JSON_parse (source (GenAI.text r))) as [parsed|] eqn:J.
  2:{ rewrite (post_unparseable e text w r) in E by assumption.
      inversion E; subst. discriminate S. }
  rewrite (post_created e text w r parsed) in E by assumption.
  inversion E; subst. exists parsed. split; reflexivity.
Qed.

(** C8: Read without an id answers 200 with the object [{analyses}],
    whose list has one entry [{id, timestamp}] for each record of the
    store, in the order of the store, no id twice; and that order is the
    order of insertion: a record created under a new id comes last, after
    the entries there were. *)
Theorem list_all (w : world) :
  store_ok (analyses w) ->
  exists entries : list (string * string),
    get_analyze JsUndefined w = (Return (listing entries), w)
    /\ Forall2
         (fun p kv =>
            fst kv = fst p /\ exists a, snd kv = record (fst p) (snd p) a)
         entries (analyses w)
    /\ NoDup (map fst entries)
    /\ forall e text resp w',
         JsMap.has (randomUUID (random_bits e)) (analyses w) = false ->
         post_analyze e text w = (Return resp, w') ->
         status resp = 201%N ->
         get_analyze JsUndefined w'
         = (Return (listing (entries ++ [(randomUUID (random_bits e), now e)])),
            w').
Proof.
  intros [D F].
  destruct (summaries _ F) as (entries & E & F2).
  exists entries.
  split; [rewrite get_all by reflexivity; unfold listing; now rewrite E|].
  split; [exact F2|].
  split; [now rewrite (Forall2_keys _ _ F2)|].
  intros e text resp w' Hfresh Hpost S.
  destruct (post_created_inv e text w w' resp Hpost S) as (parsed & _ & A).
  cbv zeta in A. rewrite set_absent in A by now apply has_false.
  rewrite get_all by reflexivity. unfold listing. rewrite A.
  unfold JsMap.values. rewrite !map_app. fold (JsMap.values (analyses w)).
  now rewrite E.
Qed.

Lemma list_all_witness :
  store_ok (analyses one_record)
  /\ exists entries,
      get_analyze JsUndefined one_record = (Return (listing entries), one_record)
      /\ map fst entries = [sample_id].
Proof.
  assert (Hok : store_ok (analyses one_record))
    by (apply run_store_ok, store_ok_empty).
  split; [exact Hok|].
  destruct (list_all one_record Hok) as (entries & E & F & _).
  exists entries. split; [exact E|].
  now rewrite (Forall2_keys _ _ F).
Defined.

(** ** The invariant of the store *)

(** C9: after any requests served from the empty store, each value of the
    store is an object of exactly the three fields id, timestamp and
    analysis, and its id is the key it is stored under. *)
Theorem store_invariant (trace : list (env * request)) (k : string)
  (o : object) :
  JsMap.get k (analyses (run trace initial)) = Some o ->
  exists timestamp analysis,
    o = [("id", JString k); ("timestamp", JString timestamp);
         ("analysis", analysis)].
Proof.
  intros G.
  assert (Hok : store_ok (analyses (run trace initial)))
    by apply run_store_ok, store_ok_empty.
  exact (proj2 (store_ok_get _ _ _ Hok G)).
Qed.

Lemma store_invariant_witness :
  exists o,
    JsMap.get sample_id
      (analyses
         (run [(working_env, POST (JsString "Test cümlesi."));
               (prose_env, POST (JsString "Bir metin daha."));
               (working_env, PUT (JsString sample_id) (JsString "Yeni metin."))]
            initial))
    = Some o
    /\ exists timestamp analysis,
        o = [("id", JString sample_id); ("timestamp", JString timestamp);
             ("analysis", analysis)].
Proof.
  eexists. split; [vm_compute; reflexivity|].
  apply (store_invariant
           [(working_env, POST (JsString "Test cümlesi."));
            (prose_env, POST (JsString "Bir metin daha."));
            (working_env, PUT (JsString sample_id) (JsString "Yeni metin."))]
           sample_id).
  vm_compute; reflexivity.
Defined.

(** ** The order of the tests of Update *)

(** C10: Update of an id that is given and is not in the store answers
    404, whatever the text (empty and blank ones too) and whether or not
    the credential is configured; no call goes out and nothing changes. *)
Theorem update_unknown_id (e : env) (id : string) (text : jsval) (w : world) :
  id <> "" ->
  JsMap.has id (analyses w) = false ->
  put_analyze e (JsString id) text w
  = (Return
       (reply 404 (message_only ("Analysis with id " ++ id ++ " not found."))),
     w).
Proof.
  intros Hid H. apply (put_not_found e (JsString id) text w).
  - now apply truthy_string.
  - exact H.
Qed.

Lemma update_unknown_id_witness :
  "missing" <> ""
  /\ JsMap.has "missing" (analyses one_record) = false
  /\ put_analyze keyless_env (JsString "missing") (JsString "   ") one_record
     = (Return
          (reply 404 (message_only "Analysis with id missing not found.")),
        one_record).
Proof.
  assert (H1 : "missing" <> "") by discriminate.
  assert (H2 : JsMap.has "missing" (analyses one_record) = false)
    by (vm_compute; reflexivity).
  split; [exact H1|]. split; [exact H2|].
  exact (update_unknown_id keyless_env "missing" (JsString "   ") one_record
           H1 H2).
Defined.

(** ** The scenarios of the specification, run on the model *)

Example trim_unicode_blanks :
  trim (byte_string [226; 128; 128; 32; 65; 32; 66; 194; 160; 239; 187; 191])
  = "A B".
Proof. vm_compute; reflexivity. Qed.

Example parse_sample_reply : JSON_parse sample_reply = Some sample_analysis.
Proof. vm_compute; reflexivity. Qed.

Example parse_rejects_trailing_comma : JSON_parse "[1,2,]" = None.
Proof. vm_compute; reflexivity. Qed.

Example parse_undefined : JSON_parse (source None) = None.
Proof. vm_compute; reflexivity. Qed.

(** POST of a sentence with a working provider: 201, the record, and the
    Location of its id. *)
Example scenario_create :
  fst (post_analyze working_env (JsString "Test cümlesi.") initial)
  = Return
      {| status := 201;
         headers :=
           [("Location",
             "/api/analyze?id=00000000-0000-4000-8000-000000000007")];
         payload :=
           Json
             (JObject
                (record sample_id "2025-01-01T10:00:00.000Z" sample_analysis)) |}.
Proof. vm_compute; reflexivity. Qed.

(** POST of blanks: 400, and no call to the provider. *)
Example scenario_blank_create :
  post_analyze working_env (JsString "   ") initial
  = (Return text_required, initial).
Proof. vm_compute; reflexivity. Qed.

(** DELETE without an id: 400. *)
Example scenario_delete_without_id :
  delete_analyze JsUndefined None one_record
  = (Return id_parameter_required, one_record).
Proof. vm_compute; reflexivity. Qed.

(** A reply that is JSON of another shape than the schema is stored as it
    is: the handlers check no shape. *)
Example create_stores_any_json :
  let e :=
    sample_env (Some "key") (Fulfilled {| GenAI.text := Some "42" |}) 11
      "2025-01-01T14:00:00.000Z" in
  exists id,
    analyses (snd (post_analyze e (JsString "Test cümlesi.") initial))
    = [(id, record id "2025-01-01T14:00:00.000Z" (JNumber "42"))].
Proof. eexists. vm_compute. reflexivity. Qed.

(** Delete, then create again: the new record is listed after the ones that
    stayed. *)
Example listing_after_delete_and_create :
  let w :=
    run [(working_env, POST (JsString "Bir."));
         (sample_env (Some "key")
            (Fulfilled {| GenAI.text := Some sample_reply |}) 8
            "2025-01-01T10:05:00.000Z", POST (JsString "İki."));
         (working_env, DELETE (JsString sample_id) None);
         (working_env, POST (JsString "Üç."))] initial in
  JsMap.keys (analyses w)
  = ["00000000-0000-4000-8000-000000000008"; sample_id].
Proof. vm_compute; reflexivity. Qed.

(** * Further properties of the server *)

(** Splits a goal about [post_analyze e text w] along the paths of the
    handler, and rewrites the call by its equation on each. *)
Ltac post_paths e text w :=
  let K := fresh "K" in
  let T := fresh "T" in
  let P := fresh "P" in
  let J := fresh "J" in
  let r := fresh "r" in
  let err := fresh "err" in
  let a := fresh "a" in
  destruct (key_configured e) eqn:K;
  [ destruct (text_rejected text) eqn:T;
    [ rewrite (post_text_rejected e text w K T)
    | destruct (provider e (generate_request post_schema (to_string text)))
        as [r|err] eqn:P;
      [ destruct (JSON_parse (source (GenAI.text r))) as [a|] eqn:J;
        [ rewrite (post_created e text w r a K T P J)
        | rewrite (post_unparseable e text w r K T P J) ]
      | rewrite (post_provider_rejects e text w err K T P) ] ]
  | rewrite (post_key_missing e text w K) ].

(** The same for [put_analyze e id text w]. *)
Ltac put_paths e id text w :=
  let I := fresh "I" in
  let H := fresh "H" in
  let K := fresh "K" in
  let T := fresh "T" in
  let P := fresh "P" in
  let J := fresh "J" in
  let r := fresh "r" in
  let err := fresh "err" in
  let a := fresh "a" in
  destruct (truthy id) eqn:I;
  [ destruct (has_by id (analyses w)) eqn:H;
    [ destruct (text_rejected text) eqn:T;
      [ rewrite (put_text_rejected e id text w I H T)
      | destruct (key_configured e) eqn:K;
        [ destruct (provider e (generate_request put_schema (to_string text)))
            as [r|err] eqn:P;
          [ destruct (JSON_parse (source (GenAI.text r))) as [a|] eqn:J;
            [ rewrite (put_updated e id text w r a I H T K P J)
            | rewrite (put_unparseable e id text w r I H T K P J) ]
          | rewrite (put_provider_rejects e id text w err I H T K P) ]
        | rewrite (put_key_missing e id text w I H T K) ] ]
    | rewrite (put_not_found e id text w I H) ]
  | rewrite (put_id_missing e id text w I) ].

(** The same for [delete_analyze query_id body w]. *)
Ltac delete_paths query_id body w :=
  let I := fresh "I" in
  let H := fresh "H" in
  destruct (truthy (js_or query_id (body_id body))) eqn:I;
  [ destruct (has_by (js_or query_id (body_id body)) (analyses w)) eqn:H;
    [ rewrite (delete_done query_id body w I H)
    | rewrite (delete_not_found query_id body w I H) ]
  | rewrite (delete_id_missing query_id body w I) ].

(** The same for [get_analyze id w]. *)
Ltac get_paths id w :=
  let I := fresh "I" in
  destruct (truthy id) eqn:I;
  [ rewrite (get_one id w I) | rewrite (get_all id w I) ].

(** The same for any request. *)
Ltac handle_paths e r w :=
  let id := fresh "id" in
  let text := fresh "text" in
  let query_id := fresh "query_id" in
  let body := fresh "body" in
  destruct r as [id|text|id text|query_id body]; cbn [handle];
  [ get_paths id w
  | post_paths e text w
  | put_paths e id text w
  | delete_paths query_id body w ].

(** X2: A response that tells a failure has a status of 400 or more; whenever a
    handler answers one, the store is as it was before the request. *)
Theorem failures_change_nothing (e : env) (r : request) (w : world) :
  exists resp w',
    handle e r w = (Return resp, w')
    /\ ((400 <= status resp)%N -> analyses w' = analyses w).
Proof.
  handle_paths e r w; do 2 eexists; (split; [reflexivity|]);
    cbn [status reply analyses with_call with_analyses no_content];
    try reflexivity; intros S; try reflexivity;
    try (exfalso; apply S; reflexivity).
Qed.



(** X5: Exactly when a call goes out to the provider: from Create when the
    credential is configured and the text accepted, from Update when
    moreover the id is given and in the store; never from Read or Delete.
    The call carries the text as it was sent, untrimmed, in the prompt. *)
Theorem provider_calls (e : env) (r : request) (w : world) :
  exists resp w',
    handle e r w = (Return resp, w')
    /\ outbound w'
       = match r with
         | GET _ | DELETE _ _ => outbound w
         | POST text =>
             if key_configured e && negb (text_rejected text)
             then generate_request post_schema (to_string text) :: outbound w
             else outbound w
         | PUT id text =>
             if truthy id && has_by id (analyses w)
                && negb (text_rejected text) && key_configured e
             then generate_request put_schema (to_string text) :: outbound w
             else outbound w
         end.
Proof.
  handle_paths e r w; do 2 eexists; (split; [reflexivity|]); reflexivity.
Qed.

Lemma update_keys_aux (e : env) (id text : jsval) (w : world) :
  JsMap.keys (analyses (snd (put_analyze e id text w)))
  = JsMap.keys (analyses w).
Proof.
  destruct (put_world e id text w) as [->|(k & a & _ & H & ->)];
    [reflexivity|].
  now apply keys_set_present.
Qed.


Lemma delete_appended {V : Type} (k : string) (v : V) (m : JsMap.t V) :
  JsMap.get k m = None -> JsMap.delete k (m ++ [(k, v)]) = m.
Proof.
  induction m as [|[k' v'] m IH]; simpl.
  - now rewrite String.eqb_refl.
  - destruct (k =? k'); [discriminate|]. intros G. now rewrite IH.
Qed.

(** X7: Create, then Delete of the id it returned: the store is again what it
    was before the two requests (the id being a new one). *)
Theorem create_then_delete (e : env) (text : jsval) (w w1 : world)
  (resp : response) :
  JsMap.has (randomUUID (random_bits e)) (analyses w) = false ->
  post_analyze e text w = (Return resp, w1) ->
  status resp = 201%N ->
  exists w2,
    delete_analyze (JsString (randomUUID (random_bits e))) None w1
    = (Return no_content, w2)
    /\ analyses w2 = analyses w.
Proof.
  intros Hfresh Hpost S.
  destruct (post_created_inv e text w w1 resp Hpost S) as (parsed & _ & A).
  cbv zeta in A. apply has_false in Hfresh.
  rewrite (set_absent _ _ _ Hfresh) in A.
  assert (O : js_or (JsString (randomUUID (random_bits e))) (body_id None)
              = JsString (randomUUID (random_bits e))).
  { unfold js_or. now rewrite randomUUID_truthy. }
  eexists. split.
  - apply delete_done; rewrite O.
    + apply randomUUID_truthy.
    + cbn [has_by]. rewrite A.
      apply has_true. unfold JsMap.keys. rewrite map_app.
      apply in_or_app. right. now left.
  - rewrite O. cbn [to_string analyses with_analyses]. rewrite A.
    now apply delete_appended.
Qed.

Lemma create_then_delete_witness :
  exists w1 w2,
    fst (post_analyze working_env (JsString "Test cümlesi.") initial)
    = Return
        {| status := 201;
           headers :=
             [("Location",
               "/api/analyze?id=00000000-0000-4000-8000-000000000007")];
           payload :=
             Json
               (JObject
                  (record sample_id "2025-01-01T10:00:00.000Z" sample_analysis)) |}
    /\ snd (post_analyze working_env (JsString "Test cümlesi.") initial) = w1
    /\ delete_analyze (JsString sample_id) None w1 = (Return no_content, w2)
    /\ analyses w2 = analyses initial.
Proof.
  eexists. 
  destruct (create_then_delete working_env (JsString "Test cümlesi.") initial
              (snd (post_analyze working_env (JsString "Test cümlesi.") initial))
              {| status := 201;
                 headers :=
                   [("Location",
                     "/api/analyze?id=00000000-0000-4000-8000-000000000007")];
                 payload :=
                   Json
                     (JObject
                        (record sample_id "2025-01-01T10:00:00.000Z"
                           sample_analysis)) |})
    as (w2 & D & A).
  - reflexivity.
  - vm_compute; reflexivity.
  - reflexivity.
  - exists w2. split; [vm_compute; reflexivity|]. split; [reflexivity|].
    split; [exact D|exact A].
Defined.

(** X8: Delete is done once: after a Delete that answered 204, the same
    request is answered 404 and changes nothing. *)
Theorem delete_twice (query_id : jsval) (body : option jsval) (w w1 : world) :
  store_ok (analyses w) ->
  delete_analyze query_id body w = (Return no_content, w1) ->
  delete_analyze query_id body w1
  = (Return (not_found (js_or query_id (body_id body))), w1).
Proof.
  intros [D _] E.
  destruct (truthy (js_or query_id (body_id body))) eqn:I.
  2:{ rewrite (delete_id_missing query_id body w I) in E. discriminate E. }
  destruct (has_by (js_or query_id (body_id body)) (analyses w)) eqn:H.
  2:{ rewrite (delete_not_found query_id body w I H) in E. discriminate E. }
  rewrite (delete_done query_id body w I H) in E.
  inversion E as [E']. clear E.
  apply delete_not_found; [exact I|].
  destruct (has_by_string _ _ H) as (k & -> & _).
  cbn [has_by to_string analyses with_analyses].
  apply has_false. now apply get_delete_same.
Qed.

Lemma delete_twice_witness :
  store_ok (analyses one_record)
  /\ exists w1,
      delete_analyze JsUndefined (Some (JsString sample_id)) one_record
      = (Return no_content, w1)
      /\ delete_analyze JsUndefined (Some (JsString sample_id)) w1
         = (Return (not_found (JsString sample_id)), w1).
Proof.
  assert (Hok : store_ok (analyses one_record))
    by (apply run_store_ok, store_ok_empty).
  split; [exact Hok|].
  eexists. split; [vm_compute; reflexivity|].
  apply (delete_twice JsUndefined (Some (JsString sample_id)) one_record _ Hok).
  vm_compute; reflexivity.
Defined.

Lemma run_keys (trace : list (env * request)) (w : world) (k : string) :
  In k (JsMap.keys (analyses (run trace w))) ->
  In k (JsMap.keys (analyses w))
  \/ exists e text,
       In (e, POST text) trace /\ k = randomUUID (random_bits e).
Proof.
  revert w; induction trace as [|[e r] trace IH]; intros w Hin; simpl in Hin.
  - now left.
  - destruct (IH _ Hin) as [Hk|(e' & text & Hin' & Hk)].
    + destruct r as [id|text|id text|query_id body]; simpl in Hk.
      * rewrite get_world in Hk. now left.
      * destruct (post_world e text w) as [A|(a & A)]; rewrite A in Hk.
        -- now left.
        -- apply in_keys_set in Hk. destruct Hk as [->|Hk]; [|now left].
           right. exists e, text. split; [now left|reflexivity].
      * rewrite update_keys_aux in Hk. now left.
      * destruct (delete_world query_id body w) as [A|(k0 & A)];
          rewrite A in Hk; [now left|].
        left. now apply in_keys_delete in Hk.
    + right. exists e', text. split; [now right|exact Hk].
Qed.

(** X9: Every id in the store was drawn by a Create of the run: no other
    request brings a key in. *)
Theorem keys_come_from_creates (trace : list (env * request)) (k : string) :
  In k (JsMap.keys (analyses (run trace initial))) ->
  exists e text, In (e, POST text) trace /\ k = randomUUID (random_bits e).
Proof.
  intros Hin. destruct (run_keys trace initial k Hin) as [[]|H]. exact H.
Qed.

Lemma keys_come_from_creates_witness :
  In sample_id (JsMap.keys (analyses one_record))
  /\ exists e text,
      In (e, POST text) [(working_env, POST (JsString "Test cümlesi."))]
      /\ sample_id = randomUUID (random_bits e).
Proof.
  assert (H : In sample_id (JsMap.keys (analyses one_record)))
    by (vm_compute; now left).
  split; [exact H|].
  exact (keys_come_from_creates
           [(working_env, POST (JsString "Test cümlesi."))] sample_id H).
Defined.

(** X10: The id of the query goes before the id of the body: Delete reads the
    body only when the query gives no id. *)
Theorem delete_reads_query_first (query_id : jsval) (body : option jsval)
  (w : world) :
  (truthy query_id = true ->
   delete_analyze query_id body w = delete_analyze query_id None w)
  /\ (truthy query_id = false ->
      delete_analyze query_id body w = delete_analyze (body_id body) None w).
Proof.
  assert (G : forall q b q' b',
             js_or q (body_id b) = js_or q' (body_id b') ->
             delete_analyze q b w = delete_analyze q' b' w).
  { intros q b q' b' E. unfold delete_analyze. now rewrite E. }
  split; intros T.
  - apply G. unfold js_or. now rewrite T.
  - destruct (truthy (body_id body)) eqn:B.
    + apply G. unfold js_or. now rewrite T, B.
    + rewrite !delete_id_missing; [reflexivity| |];
        unfold js_or; [now rewrite B|now rewrite T].
Qed.

(** X11: The id that [randomUUID] draws is not checked against the store: when
    it is a key already, Create still answers 201 and the new record takes
    the place of the old one, the keys staying as they were. *)
Theorem create_on_a_taken_id (e : env) (text : jsval) (w : world)
  (old : object) :
  JsMap.get (randomUUID (random_bits e)) (analyses w) = Some old ->
  forall resp w',
    post_analyze e text w = (Return resp, w') ->
    status resp = 201%N ->
    exists parsed,
      let id := randomUUID (random_bits e) in
      JsMap.get id (analyses w') = Some (record id (now e) parsed)
      /\ JsMap.keys (analyses w') = JsMap.keys (analyses w)
      /\ (forall k, k <> id ->
            JsMap.get k (analyses w') = JsMap.get k (analyses w)).
Proof.
  intros G resp w' Hpost S.
  destruct (post_created_inv e text w w' resp Hpost S) as (parsed & _ & A).
  exists parsed. cbv zeta in *. rewrite A.
  split; [apply get_set_same|].
  split.
  - apply keys_set_present. unfold JsMap.has. now rewrite G.
  - intros k Hk. now apply get_set_other.
Qed.

Lemma create_on_a_taken_id_witness :
  JsMap.get (randomUUID (random_bits working_env)) (analyses one_record)
  = Some (record sample_id "2025-01-01T10:00:00.000Z" sample_analysis)
  /\ exists resp w',
      post_analyze working_env (JsString "Başka bir metin.") one_record
      = (Return resp, w')
      /\ status resp = 201%N
      /\ JsMap.keys (analyses w') = JsMap.keys (analyses one_record).
Proof.
  assert (G : JsMap.get (randomUUID (random_bits working_env))
                (analyses one_record)
              = Some (record sample_id "2025-01-01T10:00:00.000Z"
                        sample_analysis)) by (vm_compute; reflexivity).
  split; [exact G|].
  do 2 eexists. split; [vm_compute; reflexivity|]. split; [reflexivity|].
  destruct (create_on_a_taken_id working_env (JsString "Başka bir metin.")
              one_record _ G _ _ eq_refl eq_refl) as (parsed & _ & K & _).
  exact K.
Defined.

(** ** What the validation of the text rejects *)

Lemma append_nil_r (s : string) : (s ++ "")%string = s.
Proof. induction s as [|c s IH]; simpl; [reflexivity|now rewrite IH]. Qed.

Lemma append_assoc (a b c : string) :
  ((a ++ b) ++ c)%string = (a ++ (b ++ c))%string.
Proof. induction a as [|x a IH]; simpl; [reflexivity|now rewrite IH]. Qed.

Lemma string_rev_append_spec (s acc : string) :
  string_rev_append s acc = (string_rev s ++ acc)%string.
Proof.
  unfold string_rev. revert acc.
  induction s as [|c s IH]; intros acc; simpl; [reflexivity|].
  rewrite (IH (String c acc)), (IH (String c "")), append_assoc.
  reflexivity.
Qed.

Lemma string_rev_app (a b : string) :
  string_rev (a ++ b) = (string_rev b ++ string_rev a)%string.
Proof.
  induction a as [|c a IH]; simpl.
  - now rewrite append_nil_r.
  - unfold string_rev at 1 3. simpl.
    rewrite !string_rev_append_spec, IH, append_assoc. reflexivity.
Qed.

Lemma string_rev_involutive (s : string) : string_rev (string_rev s) = s.
Proof.
  induction s as [|c s IH]; [reflexivity|].
  unfold string_rev at 2. simpl.
  rewrite string_rev_append_spec, string_rev_app, IH. reflexivity.
Qed.

Lemma strip_prefix_sound (p s r : string) :
  strip_prefix p s = Some r -> s = (p ++ r)%string.
Proof.
  revert s; induction p as [|a p IH]; intros s H; simpl in *.
  - now inversion H.
  - destruct s as [|b s]; [discriminate|].
    destruct (Ascii.eqb a b) eqn:E; [|discriminate].
    apply Ascii.eqb_eq in E; subst b. f_equal. now apply IH.
Qed.

Lemma strip_any_sound (ps : list string) (s r : string) :
  strip_any ps s = Some r -> exists p, In p ps /\ s = (p ++ r)%string.
Proof.
  induction ps as [|p ps IH]; simpl; [discriminate|].
  destruct (strip_prefix p s) as [r'|] eqn:E.
  - intros H; inversion H; subst r'. exists p.
    split; [now left|now apply strip_prefix_sound].
  - intros H. destruct (IH H) as (p' & Hin & Hs).
    exists p'. split; [now right|exact Hs].
Qed.

(** What [strip_all] takes away is a sequence of the prefixes. *)
Lemma strip_all_sound (ps : list string) (fuel : nat) (s : string) :
  exists taken,
    Forall (fun p => In p ps) taken
    /\ s = (fold_right append "" taken ++ strip_all ps fuel s)%string.
Proof.
  revert s; induction fuel as [|n IH]; intros s; simpl.
  - exists []. split; [constructor|reflexivity].
  - destruct (strip_any ps s) as [r|] eqn:E.
    + destruct (strip_any_sound ps s r E) as (p & Hin & ->).
      destruct (IH r) as (taken & F & Hr).
      exists (p :: taken). split; [now constructor|].
      simpl. rewrite append_assoc. now rewrite <- Hr.
    + exists []. split; [constructor|reflexivity].
Qed.

Lemma whitespace_only_concat (parts : list string) :
  Forall (fun p => In p WhiteSpace) parts ->
  whitespace_only (fold_right append "" parts).
Proof.
  induction 1 as [|p parts Hp _ IH]; simpl; [constructor|].
  now apply ws_more.
Qed.

Lemma whitespace_only_app (a b : string) :
  whitespace_only a -> whitespace_only b -> whitespace_only (a ++ b).
Proof.
  induction 1 as [|w a Hw _ IH]; intros Hb; simpl; [exact Hb|].
  rewrite append_assoc. apply ws_more; [exact Hw|now apply IH].
Qed.

Lemma string_rev_concat (parts : list string) :
  string_rev (fold_right append "" parts)
  = fold_right append "" (map string_rev (rev parts)).
Proof.
  induction parts as [|p parts IH]; simpl; [reflexivity|].
  rewrite string_rev_app, IH, map_app.
  clear IH. induction (map string_rev (rev parts)) as [|q qs IH]; simpl.
  - now rewrite append_nil_r.
  - now rewrite append_assoc, IH.
Qed.

Lemma trim_empty_whitespace_only (s : string) :
  trim s = "" -> whitespace_only s.
Proof.
  unfold trim, trimEnd, trimStart. intros H.
  destruct (strip_all_sound WhiteSpace (String.length s) s)
    as (taken & F & Hs).
  set (t := strip_all WhiteSpace (String.length s) s) in *.
  destruct (strip_all_sound (map string_rev WhiteSpace) (String.length t)
              (string_rev t)) as (taken' & F' & Ht).
  apply (f_equal string_rev) in H. rewrite string_rev_involutive in H.
  change (string_rev "") with "" in H. rewrite H, append_nil_r in Ht.
  apply (f_equal string_rev) in Ht.
  rewrite string_rev_involutive, string_rev_concat in Ht.
  rewrite Hs. apply whitespace_only_app.
  - now apply whitespace_only_concat.
  - rewrite Ht. apply whitespace_only_concat.
    apply Forall_forall. intros q Hq.
    apply in_map_iff in Hq. destruct Hq as (p & <- & Hp).
    apply in_rev in Hp. rewrite Forall_forall in F'.
    apply F' in Hp. apply in_map_iff in Hp.
    destruct Hp as (w & <- & Hw). now rewrite string_rev_involutive.
Qed.

(** X12: The test that Create and Update apply to the text rejects a string
    exactly when it is made of white space only (the empty string too);
    a text that is no string is always rejected. *)
Theorem rejected_texts (text : jsval) :
  text_rejected text = true
  <-> match text with
      | JsString s => whitespace_only s
      | _ => True
      end.
Proof.
  destruct text as [|s|t shown].
  - split; [trivial|reflexivity].
  - split; [|apply whitespace_only_rejected].
    intros H. apply trim_empty_whitespace_only.
    destruct (trim s =? "") eqn:E; [now apply String.eqb_eq|].
    exfalso. apply String.eqb_neq in E. apply accepted_text in E. congruence.
  - split; [trivial|]. intros _. unfold text_rejected. simpl.
    now rewrite orb_true_r.
Qed.

(** * The serverless function *)

Ltac serverless_steps :=
  cbv beta iota zeta delta
    [Serverless.handler Serverless.handleGet Serverless.handlePost
     Serverless.handlePut Serverless.handleDelete Serverless.read_fields
     Serverless.method Serverless.search_id Serverless.fields
     try_catch bind ret throw generateContent parse_text negb fst snd].

(** Follows the branch that the equation [H] selects. *)
Ltac serverless_along H := rewrite H; serverless_steps.

Section ServerlessPaths.

Variables (e : env) (req : Serverless.Request) (w : world).

Lemma serverless_post_key_missing :
  key_configured e = false ->
  Serverless.handlePost e req w
  = (Return
       (Serverless.respond 500 []
          (message_only "Internal Server Error: API key not configured.")), w).
Proof. intros K. serverless_steps. serverless_along K. reflexivity. Qed.

Lemma serverless_post_unreadable (err : thrown) :
  key_configured e = true ->
  Serverless.fields req = Rejected err ->
  Serverless.handlePost e req w
  = (Return
       (Serverless.respond 500 []
          (Serverless.failure "Failed to analyze text." err)), w).
Proof.
  intros K F. destruct req as [m s f]. simpl in F. subst f.
  serverless_steps. serverless_along K. reflexivity.
Qed.

Lemma serverless_post_text_rejected (id : Serverless.id_field) (text : jsval) :
  key_configured e = true ->
  Serverless.fields req = Fulfilled (id, text) ->
  text_rejected text = true ->
  Serverless.handlePost e req w
  = (Return
       (Serverless.respond 400 []
          (message_only
             (dquote ++ "text" ++ dquote
              ++ " field is required and cannot be empty."))), w).
Proof.
  intros K F T. destruct req as [m s f]. simpl in F. subst f.
  serverless_steps. serverless_along K. serverless_along T. reflexivity.
Qed.

Lemma serverless_post_provider_rejects (id : Serverless.id_field)
  (text : jsval) (err : thrown) :
  key_configured e = true ->
  Serverless.fields req = Fulfilled (id, text) ->
  text_rejected text = false ->
  provider e (generate_request post_schema (to_string text)) = Rejected err ->
  Serverless.handlePost e req w
  = (Return
       (Serverless.respond 500 []
          (Serverless.failure "Failed to analyze text." err)),
     with_call (generate_request post_schema (to_string text)) w).
Proof.
  intros K F T P. destruct req as [m s f]. simpl in F. subst f.
  serverless_steps. serverless_along K. serverless_along T.
  serverless_along P. reflexivity.
Qed.

Lemma serverless_post_unparseable (id : Serverless.id_field) (text : jsval)
  (r : GenAI.GenerateContentResponse) :
  key_configured e = true ->
  Serverless.fields req = Fulfilled (id, text) ->
  text_rejected text = false ->
  provider e (generate_request post_schema (to_string text)) = Fulfilled r ->
  JSON_parse (source (GenAI.text r)) = None ->
  Serverless.handlePost e req w
  = (Return
       (Serverless.respond 500 []
          (Serverless.failure "Failed to analyze text."
             (Error (syntax_error_message e (source (GenAI.text r)))))),
     with_call (generate_request post_schema (to_string text)) w).
Proof.
  intros K F T P J. destruct req as [m s f]. simpl in F. subst f.
  serverless_steps. serverless_along K. serverless_along T.
  serverless_along P. serverless_along J. reflexivity.
Qed.

Lemma serverless_post_created (id : Serverless.id_field) (text : jsval)
  (r : GenAI.GenerateContentResponse) (a : json) :
  key_configured e = true ->
  Serverless.fields req = Fulfilled (id, text) ->
  text_rejected text = false ->
  provider e (generate_request post_schema (to_string text)) = Fulfilled r ->
  JSON_parse (source (GenAI.text r)) = Some a ->
  Serverless.handlePost e req w
  = (Return
       (Serverless.respond 201
          [("Location",
            ("/api/analyze?id=" ++ randomUUID (random_bits e))%string)]
          (JObject (record (randomUUID (random_bits e)) (now e) a))),
     with_call (generate_request post_schema (to_string text)) w).
Proof.
  intros K F T P J. destruct req as [m s f]. simpl in F. subst f.
  serverless_steps. serverless_along K. serverless_along T.
  serverless_along P. serverless_along J. reflexivity.
Qed.

Lemma serverless_put_unreadable (err : thrown) :
  Serverless.fields req = Rejected err ->
  Serverless.handlePut e req w
  = (Return
       (Serverless.respond 500 []
          (Serverless.failure "Failed to update analysis." err)), w).
Proof.
  intros F. destruct req as [m s f]. simpl in F. subst f.
  serverless_steps. reflexivity.
Qed.

Lemma serverless_put_id_missing (id : Serverless.id_field) (text : jsval) :
  Serverless.fields req = Fulfilled (id, text) ->
  Serverless.id_truthy id = false ->
  Serverless.handlePut e req w
  = (Return
       (Serverless.respond 400 []
          (message_only (dquote ++ "id" ++ dquote ++ " field is required."))),
     w).
Proof.
  intros F I. destruct req as [m s f]. simpl in F. subst f.
  serverless_steps. serverless_along I. reflexivity.
Qed.

Lemma serverless_put_text_rejected (id : Serverless.id_field) (text : jsval) :
  Serverless.fields req = Fulfilled (id, text) ->
  Serverless.id_truthy id = true ->
  text_rejected text = true ->
  Serverless.handlePut e req w
  = (Return
       (Serverless.respond 400 []
          (message_only
             (dquote ++ "text" ++ dquote
              ++ " field is required and cannot be empty."))), w).
Proof.
  intros F I T. destruct req as [m s f]. simpl in F. subst f.
  serverless_steps. serverless_along I. serverless_along T. reflexivity.
Qed.

Lemma serverless_put_done (id : Serverless.id_field) (text : jsval) :
  Serverless.fields req = Fulfilled (id, text) ->
  Serverless.id_truthy id = true ->
  text_rejected text = false ->
  Serverless.handlePut e req w
  = (Return
       (Serverless.respond 200 []
          (JObject
             (written
                [("id", Serverless.id_json id);
                 ("message", Some (JString "Analysis updated successfully"));
                 ("timestamp", Some (JString (now e)))]))), w).
Proof.
  intros F I T. destruct req as [m s f]. simpl in F. subst f.
  serverless_steps. serverless_along I. serverless_along T. reflexivity.
Qed.

End ServerlessPaths.

(** Splits a goal about [Serverless.handlePost e req w] along its paths. *)
Ltac serverless_post_paths e req w :=
  let K := fresh "K" in
  let F := fresh "F" in
  let T := fresh "T" in
  let P := fresh "P" in
  let J := fresh "J" in
  let id := fresh "id" in
  let text := fresh "text" in
  let r := fresh "r" in
  let err := fresh "err" in
  let a := fresh "a" in
  destruct (key_configured e) eqn:K;
  [ destruct (Serverless.fields req) as [[id text]|err] eqn:F;
    [ destruct (text_rejected text) eqn:T;
      [ rewrite (serverless_post_text_rejected e req w id text K F T)
      | destruct (provider e (generate_request post_schema (to_string text)))
          as [r|err] eqn:P;
        [ destruct (JSON_parse (source (GenAI.text r))) as [a|] eqn:J;
          [ rewrite (serverless_post_created e req w id text r a K F T P J)
          | rewrite (serverless_post_unparseable e req w id text r K F T P J) ]
        | rewrite (serverless_post_provider_rejects e req w id text err K F T P) ] ]
    | rewrite (serverless_post_unreadable e req w err K F) ]
  | rewrite (serverless_post_key_missing e req w K) ].

(** The same for [Serverless.handlePut e req w]. *)
Ltac serverless_put_paths e req w :=
  let F := fresh "F" in
  let I := fresh "I" in
  let T := fresh "T" in
  let id := fresh "id" in
  let text := fresh "text" in
  let err := fresh "err" in
  destruct (Serverless.fields req) as [[id text]|err] eqn:F;
  [ destruct (Serverless.id_truthy id) eqn:I;
    [ destruct (text_rejected text) eqn:T;
      [ rewrite (serverless_put_text_rejected e req w id text F I T)
      | rewrite (serverless_put_done e req w id text F I T) ]
    | rewrite (serverless_put_id_missing e req w id text F I) ]
  | rewrite (serverless_put_unreadable e req w err F) ].

(** The same for [Serverless.handler e later req w], method by method. *)
Ltac serverless_paths e later req w :=
  let G := fresh "G" in
  let P := fresh "P" in
  let U := fresh "U" in
  let D := fresh "D" in
  unfold Serverless.handler;
  destruct (Serverless.method req =? "GET") eqn:G;
  [ unfold Serverless.handleGet, ret;
    destruct (Serverless.given (Serverless.search_id req))
  | destruct (Serverless.method req =? "POST") eqn:P;
    [ serverless_post_paths e req w
    | destruct (Serverless.method req =? "PUT") eqn:U;
      [ serverless_put_paths e req w
      | destruct (Serverless.method req =? "DELETE") eqn:D;
        [ unfold Serverless.handleDelete, ret;
          destruct (Serverless.given (Serverless.search_id req))
        | unfold ret ] ] ] ].

(** X13: The serverless function answers every request, always with the JSON
    content type as first header and a JSON body; a failure carries a
    message; it never touches the store, and no method but POST calls the
    provider. *)
Theorem serverless_answers (e : env) (later : string)
  (req : Serverless.Request) (w : world) :
  exists resp w',
    Serverless.handler e later req w = (Return resp, w')
    /\ analyses w' = analyses w
    /\ (exists more, headers resp = ("Content-Type", "application/json") :: more)
    /\ (exists v, payload resp = Json (JObject v))
    /\ ((400 <= status resp)%N ->
        exists m rest,
          payload resp = Json (JObject (("message", JString m) :: rest)))
    /\ (Serverless.method req <> "POST" -> w' = w).
Proof.
  serverless_paths e later req w;
    do 2 eexists; (split; [reflexivity|]);
    (split; [reflexivity|]);
    (split; [eexists; reflexivity|]);
    (split; [eexists; reflexivity|]);
    (split;
     [ try (intros S; exfalso; apply S; reflexivity);
       try (intros _; do 2 eexists; reflexivity)
     | try reflexivity;
       intros N; exfalso; apply N; now apply String.eqb_eq ]).
Qed.

(** X14: The statuses the serverless function can answer, method by method: it
    never answers 404 or 204, and any method other than the four gets 405
    with the list of the four in the Allow header. *)
Theorem serverless_statuses (e : env) (later : string)
  (req : Serverless.Request) (w : world) :
  exists resp w',
    Serverless.handler e later req w = (Return resp, w')
    /\ In (status resp)
         (if Serverless.method req =? "GET" then [200%N]
          else if Serverless.method req =? "POST" then [201%N; 400%N; 500%N]
          else if Serverless.method req =? "PUT" then [200%N; 400%N; 500%N]
          else if Serverless.method req =? "DELETE" then [200%N; 400%N]
          else [405%N])
    /\ (status resp = 405%N ->
        headers resp
        = [("Content-Type", "application/json");
           ("Allow", "GET, POST, PUT, DELETE")]).
Proof.
  serverless_paths e later req w;
    do 2 eexists; (split; [reflexivity|]);
    (split; [simpl; tauto|]);
    try reflexivity; intros S; discriminate S.
Qed.

(** X15: The two Create handlers on the same request: they make the same calls
    to the provider; they answer the same status unless the reply is no
    JSON, and the same body unless moreover the provider threw a value that
    is no Error; only the server stores the record. *)
Theorem serverless_create_agrees (e : env) (req : Serverless.Request)
  (id : Serverless.id_field) (text : jsval) (w : world) :
  Serverless.fields req = Fulfilled (id, text) ->
  exists r1 w1 r2 w2,
    post_analyze e text w = (Return r1, w1)
    /\ Serverless.handlePost e req w = (Return r2, w2)
    /\ outbound w2 = outbound w1
    /\ analyses w2 = analyses w
    /\ (status r2 = status r1
        \/ exists r,
            provider e (generate_request post_schema (to_string text))
            = Fulfilled r
            /\ JSON_parse (source (GenAI.text r)) = None
            /\ status r1 = 200%N /\ status r2 = 500%N)
    /\ (payload r2 = payload r1
        \/ (exists r,
              provider e (generate_request post_schema (to_string text))
              = Fulfilled r
              /\ JSON_parse (source (GenAI.text r)) = None)
        \/ provider e (generate_request post_schema (to_string text))
           = Rejected NotAnError).
Proof.
  intros F.
  destruct (key_configured e) eqn:K.
  2:{ rewrite (post_key_missing e text w K),
        (serverless_post_key_missing e req w K).
      do 4 eexists. repeat (split; [reflexivity|]). split; now left. }
  destruct (text_rejected text) eqn:T.
  { rewrite (post_text_rejected e text w K T),
      (serverless_post_text_rejected e req w id text K F T).
    do 4 eexists. repeat (split; [reflexivity|]). split; now left. }
  destruct (provider e (generate_request post_schema (to_string text)))
    as [r|err] eqn:P.
  2:{ rewrite (post_provider_rejects e text w err K T P),
        (serverless_post_provider_rejects e req w id text err K F T P).
      do 4 eexists. repeat (split; [reflexivity|]).
      split; [now left|]. destruct err; [now left|now right; right]. }
  destruct (JSON_parse (source (GenAI.text r))) as [a|] eqn:J.
  - rewrite (post_created e text w r a K T P J),
      (serverless_post_created e req w id text r a K F T P J).
    do 4 eexists. repeat (split; [reflexivity|]). split; now left.
  - rewrite (post_unparseable e text w r K T P J),
      (serverless_post_unparseable e req w id text r K F T P J).
    do 4 eexists. repeat (split; [reflexivity|]).
    split; [right|right; left]; exists r; now repeat split.
Qed.

Lemma serverless_create_agrees_witness :
  exists r1 w1 r2 w2,
    post_analyze working_env (JsString "Test cümlesi.") initial = (Return r1, w1)
    /\ Serverless.handlePost working_env
         {| Serverless.method := "POST";
            Serverless.search_id := None;
            Serverless.fields :=
              Fulfilled (Serverless.IdUndefined, JsString "Test cümlesi.") |}
         initial
       = (Return r2, w2)
    /\ outbound w2 = outbound w1
    /\ analyses w2 = [].
Proof.
  destruct (serverless_create_agrees working_env
              {| Serverless.method := "POST";
                 Serverless.search_id := None;
                 Serverless.fields :=
                   Fulfilled (Serverless.IdUndefined, JsString "Test cümlesi.") |}
              Serverless.IdUndefined (JsString "Test cümlesi.") initial eq_refl)
    as (r1 & w1 & r2 & w2 & E1 & E2 & O & A & _).
  exists r1, w1, r2, w2. now repeat split.
Defined.

(** X16: A reply of the provider that is no JSON: the serverless Create answers
    500 with a JSON error object, where the Create of the server falls back
    to 200 and the raw reply. *)
Theorem serverless_create_unparseable (e : env) (req : Serverless.Request)
  (id : Serverless.id_field) (text : jsval) (w : world)
  (r : GenAI.GenerateContentResponse) :
  key_configured e = true ->
  Serverless.fields req = Fulfilled (id, text) ->
  text_rejected text = false ->
  provider e (generate_request post_schema (to_string text)) = Fulfilled r ->
  JSON_parse (source (GenAI.text r)) = None ->
  exists w',
    Serverless.handlePost e req w
    = (Return
         {| status := 500;
            headers := [("Content-Type", "application/json")];
            payload :=
              Json
                (JObject
                   [("message", JString "Failed to analyze text.");
                    ("error",
                     JString (syntax_error_message e (source (GenAI.text r))))]) |},
       w')
    /\ post_analyze e text w
       = (Return
            {| status := 200;
               headers := [("Content-Type", "application/json")];
               payload := Sent (GenAI.text r) |}, w').
Proof.
  intros K F T P J. eexists. split.
  - now apply (serverless_post_unparseable e req w id text r).
  - now apply (post_unparseable e text w r).
Qed.

Lemma serverless_create_unparseable_witness :
  key_configured prose_env = true
  /\ text_rejected (JsString "Test cümlesi.") = false
  /\ JSON_parse "Merhaba, analiz burada." = None
  /\ exists resp w',
      Serverless.handlePost prose_env
        {| Serverless.method := "POST";
           Serverless.search_id := None;
           Serverless.fields :=
             Fulfilled (Serverless.IdUndefined, JsString "Test cümlesi.") |}
        initial
      = (Return resp, w')
      /\ status resp = 500%N.
Proof.
  assert (K : key_configured prose_env = true) by reflexivity.
  assert (T : text_rejected (JsString "Test cümlesi.") = false)
    by (vm_compute; reflexivity).
  assert (J : JSON_parse "Merhaba, analiz burada." = None)
    by (vm_compute; reflexivity).
  repeat (split; [assumption|]).
  destruct (serverless_create_unparseable prose_env
              {| Serverless.method := "POST";
                 Serverless.search_id := None;
                 Serverless.fields :=
                   Fulfilled (Serverless.IdUndefined, JsString "Test cümlesi.") |}
              Serverless.IdUndefined (JsString "Test cümlesi.") initial
              {| GenAI.text := Some "Merhaba, analiz burada." |}
              K eq_refl T eq_refl J) as (w' & E & _).
  do 2 eexists. split; [exact E|reflexivity].
Defined.

(** X17: The serverless Update looks at nothing but the request: any id that is
    given, with an accepted text, gets 200 with the id echoed and the time
    of the answer, whatever the credential; no call goes out and nothing
    changes. *)
Theorem serverless_update_sample (e : env) (req : Serverless.Request)
  (id : Serverless.id_field) (text : jsval) (w : world) :
  Serverless.fields req = Fulfilled (id, text) ->
  Serverless.id_truthy id = true ->
  text_rejected text = false ->
  exists v,
    Serverless.id_json id = Some v
    /\ Serverless.handlePut e req w
       = (Return
            {| status := 200;
               headers := [("Content-Type", "application/json")];
               payload :=
                 Json
                   (JObject
                      [("id", v);
                       ("message", JString "Analysis updated successfully");
                       ("timestamp", JString (now e))]) |}, w).
Proof.
  intros F I T.
  rewrite (serverless_put_done e req w id text F I T).
  destruct id as [|s|t v]; [discriminate I| |]; eexists;
    (split; [reflexivity|reflexivity]).
Qed.

Lemma serverless_update_sample_witness :
  Serverless.id_truthy (Serverless.IdString "no-such-id") = true
  /\ text_rejected (JsString "Yeni metin.") = false
  /\ fst (Serverless.handlePut keyless_env
            {| Serverless.method := "PUT";
               Serverless.search_id := None;
               Serverless.fields :=
                 Fulfilled (Serverless.IdString "no-such-id",
                            JsString "Yeni metin.") |}
            initial)
     = Return
         {| status := 200;
            headers := [("Content-Type", "application/json")];
            payload :=
              Json
                (JObject
                   [("id", JString "no-such-id");
                    ("message", JString "Analysis updated successfully");
                    ("timestamp", JString "2025-01-01T13:00:00.000Z")]) |}.
Proof.
  assert (I : Serverless.id_truthy (Serverless.IdString "no-such-id") = true)
    by reflexivity.
  assert (T : text_rejected (JsString "Yeni metin.") = false)
    by (vm_compute; reflexivity).
  split; [exact I|]. split; [exact T|].
  destruct (serverless_update_sample keyless_env
              {| Serverless.method := "PUT";
                 Serverless.search_id := None;
                 Serverless.fields :=
                   Fulfilled (Serverless.IdString "no-such-id",
                              JsString "Yeni metin.") |}
              (Serverless.IdString "no-such-id") (JsString "Yeni metin.")
              initial eq_refl I T) as (v & V & E).
  inversion V; subst v. now rewrite E.
Defined.

(** * The client *)

(** X18: Whatever goes wrong, [analyzeText] rejects with an Error whose message
    starts with the same words: a network failure, a status that is not ok,
    a body that is no JSON, even a thrown value that is no Error. *)
Theorem analyzeText_failures (fetch : string -> settled Client.Response)
  (text : string) (err : thrown) :
  Client.analyzeText fetch text = Rejected err ->
  exists rest, err = Error ("Metin analizi sırasında " ++ rest).
Proof.
  unfold Client.analyzeText.
  destruct (Client.attempt (fetch text)) as [v|[m|]]; intros H;
    inversion H; subst err; eexists; simpl; reflexivity.
Qed.

Lemma analyzeText_failures_witness :
  exists rest,
    Client.analyzeText (fun _ => Rejected (Error "Failed to fetch")) "Metin"
    = Rejected (Error ("Metin analizi sırasında " ++ rest)).
Proof.
  destruct (analyzeText_failures (fun _ => Rejected (Error "Failed to fetch"))
              "Metin"
              (Error "Metin analizi sırasında bir hata oluştu: Failed to fetch")
              eq_refl) as (rest & E).
  exists rest. now rewrite <- E.
Defined.

(** X19: For a status that is not ok, the message of the Error is the message of
    the body when the body is JSON and has one that is not empty, and names
    the status otherwise (no message, an empty one, a body that is no
    JSON). *)
Theorem analyzeText_not_ok (fetch : string -> settled Client.Response)
  (text : string) (response : Client.Response) :
  fetch text = Fulfilled response ->
  Client.ok response = false ->
  let told (m : string) : settled json :=
    Rejected (Error ("Metin analizi sırasında bir hata oluştu: " ++ m)) in
  let status_told : settled json :=
    told
      ("API isteği durumu: " ++ Client.decimal (Client.status response))%string
  in
  (forall body m,
     Client.parsed response = Fulfilled body ->
     Client.message body = JsString m -> m <> "" ->
     Client.analyzeText fetch text = told m)
  /\ (forall body,
        Client.parsed response = Fulfilled body ->
        truthy (Client.message body) = false ->
        Client.analyzeText fetch text = status_told)
  /\ (forall err,
        Client.parsed response = Rejected err ->
        Client.analyzeText fetch text = status_told).
Proof.
  intros F O told status_told. subst told status_told.
  unfold Client.analyzeText, Client.attempt. rewrite F, O. cbn [negb].
  split; [|split].
  - intros body m P M Hm. rewrite P, M. unfold js_or.
    apply truthy_string in Hm. now rewrite Hm.
  - intros body P T. rewrite P. unfold js_or. now rewrite T.
  - intros err P. now rewrite P.
Qed.

Lemma analyzeText_not_ok_witness :
  Client.analyzeText
    (fun _ =>
       Fulfilled
         {| Client.ok := false;
            Client.status := 502;
            Client.parsed := Rejected (Error "Unexpected token <") |})
    "Metin"
  = Rejected
      (Error "Metin analizi sırasında bir hata oluştu: API isteği durumu: 502").
Proof.
  apply (analyzeText_not_ok
           (fun _ =>
              Fulfilled
                {| Client.ok := false;
                   Client.status := 502;
                   Client.parsed := Rejected (Error "Unexpected token <") |})
           "Metin" _ eq_refl eq_refl) with (err := Error "Unexpected token <").
  reflexivity.
Defined.

(** ** The App *)

(** X20: A blank input is stopped in the component: only the error changes, to
    the request for a text; [analyzeText] is not called, and the result and
    the loading flag stay as they were. *)
Theorem blank_input_stays_local (analyze : string -> settled json)
  (s : App.State) :
  whitespace_only (App.inputText s) ->
  App.handleAnalysis analyze s
  = {| App.inputText := App.inputText s;
       App.analysisResult := App.analysisResult s;
       App.isLoading := App.isLoading s;
       App.error := Some "Lütfen analiz edilecek bir metin girin." |}.
Proof.
  intros H. unfold App.handleAnalysis.
  now rewrite (whitespace_only_trim _ H).
Qed.

Lemma blank_input_stays_local_witness :
  whitespace_only " "
  /\ App.handleAnalysis (fun _ => Fulfilled JNull)
       {| App.inputText := " ";
          App.analysisResult := Some sample_analysis;
          App.isLoading := false;
          App.error := None |}
     = {| App.inputText := " ";
          App.analysisResult := Some sample_analysis;
          App.isLoading := false;
          App.error := Some "Lütfen analiz edilecek bir metin girin." |}.
Proof.
  assert (Hws : whitespace_only " ").
  { apply (ws_more " " ""); [simpl; tauto|constructor]. }
  split; [exact Hws|].
  exact (blank_input_stays_local (fun _ => Fulfilled JNull)
           {| App.inputText := " ";
              App.analysisResult := Some sample_analysis;
              App.isLoading := false;
              App.error := None |} Hws).
Defined.

(** X21: For an input that is not blank, once the analysis has settled the
    loading flag is off and the input is as it was; there is no error
    exactly when the analysis gave a result, and with an error there is no
    result on display. *)
Theorem analysis_settles (analyze : string -> settled json) (s : App.State) :
  ~ whitespace_only (App.inputText s) ->
  let s' := App.handleAnalysis analyze s in
  App.isLoading s' = false
  /\ App.inputText s' = App.inputText s
  /\ (App.error s' = None <-> exists v, analyze (App.inputText s) = Fulfilled v)
  /\ (App.error s' <> None -> App.analysisResult s' = None).
Proof.
  intros H s'. subst s'. unfold App.handleAnalysis.
  destruct (trim (App.inputText s) =? "") eqn:E.
  { apply String.eqb_eq in E. exfalso. apply H.
    now apply trim_empty_whitespace_only. }
  destruct (analyze (App.inputText s)) as [v|[m|]]; cbn;
    (split; [reflexivity|]); (split; [reflexivity|]); split.
  - split; [intros _; now exists v|reflexivity].
  - intros N. now contradiction N.
  - split; [discriminate|intros (v & Hv); discriminate Hv].
  - reflexivity.
  - split; [discriminate|intros (v & Hv); discriminate Hv].
  - reflexivity.
Qed.

Lemma analysis_settles_witness :
  App.isLoading
    (App.handleAnalysis (fun _ => Rejected (Error "x"))
       {| App.inputText := "Metin";
          App.analysisResult := Some sample_analysis;
          App.isLoading := false;
          App.error := None |})
  = false.
Proof.
  apply (analysis_settles (fun _ => Rejected (Error "x"))
           {| App.inputText := "Metin";
              App.analysisResult := Some sample_analysis;
              App.isLoading := false;
              App.error := None |}).
  intros H. apply whitespace_only_trim in H. vm_compute in H. discriminate H.
Defined.

(** X22: With [analyzeText] behind it, the App never shows its message for a
    thrown value that is no Error: [analyzeText] only ever throws Errors. *)
Theorem unknown_error_never_shown (fetch : string -> settled Client.Response)
  (s : App.State) :
  App.error (App.handleAnalysis (Client.analyzeText fetch) s)
  <> Some "Bilinmeyen bir hata oluştu.".
Proof.
  unfold App.handleAnalysis.
  destruct (trim (App.inputText s) =? ""); [cbn; discriminate|].
  unfold Client.analyzeText.
  destruct (Client.attempt (fetch (App.inputText s))) as [v|[m|]]; cbn;
    discriminate.
Qed.

(** * The App, the client and the server together *)

Lemma delivered_json (browser_error : string -> string) (code : N)
  (hs : list (string * string)) (v : json) (m : jsval) :
  message_seen v = Some m ->
  delivered browser_error {| status := code; headers := hs; payload := Json v |}
  = Some {| Client.ok := ((200 <=? code) && (code <=? 299))%N;
            Client.status := code;
            Client.parsed :=
              Fulfilled {| Client.value := v; Client.message := m |} |}.
Proof. intros H. unfold delivered. cbn. now rewrite H. Qed.

Lemma trim_eqb_false (s : string) : trim s <> "" -> (trim s =? "") = false.
Proof. intros H. now apply String.eqb_neq. Qed.





(** X25: A text that the App sends and the server fails on, for want of the
    credential or because the provider threw: the App ends with the
    [message] of the response as its error, after the words of the client,
    and no result; the detail that the response carries in [error], the
    text of what the provider threw, is not shown. *)
Theorem shown_after_failure (browser_error : string -> string) (e : env)
  (s : App.State) (w : world) (fetch : string -> settled Client.Response) :
  trim (App.inputText s) <> "" ->
  key_configured e = false
  \/ (exists err,
        provider e (generate_request post_schema (App.inputText s))
        = Rejected err) ->
  let told :=
    if key_configured e then "Failed to analyze text."
    else "Internal Server Error: API key not configured." in
  exists resp w' view,
    post_analyze e (JsString (App.inputText s)) w = (Return resp, w')
    /\ status resp = 500%N
    /\ delivered browser_error resp = Some view
    /\ (fetch (App.inputText s) = Fulfilled view ->
        App.handleAnalysis (Client.analyzeText fetch) s
        = {| App.inputText := App.inputText s;
             App.analysisResult := None;
             App.isLoading := false;
             App.error :=
               Some ("Metin analizi sırasında bir hata oluştu: " ++ told)%string |}).
Proof.
  intros Ht Hfail told. subst told.
  pose proof (proj2 (accepted_text _) Ht) as T.
  destruct (key_configured e) eqn:K.
  - destruct Hfail as [Hfail|(err & P)]; [discriminate Hfail|].
    do 3 eexists.
    split;
      [exact (post_provider_rejects e (JsString (App.inputText s)) w err K T P)|].
    split; [reflexivity|].
    split; [now apply delivered_json|].
    intros F. unfold App.handleAnalysis, Client.analyzeText, Client.attempt.
    rewrite (trim_eqb_false _ Ht), F. reflexivity.
  - do 3 eexists.
    split; [exact (post_key_missing e (JsString (App.inputText s)) w K)|].
    split; [reflexivity|].
    split; [now apply delivered_json|].
    intros F. unfold App.handleAnalysis, Client.analyzeText, Client.attempt.
    rewrite (trim_eqb_false _ Ht), F. reflexivity.
Qed.

Lemma shown_after_failure_witness :
  exists resp w' view,
    post_analyze failing_env (JsString "Test cümlesi.") initial
    = (Return resp, w')
    /\ payload resp
       = Json
           (JObject
              [("message", JString "Failed to analyze text.");
               ("error", JString "fetch failed")])
    /\ delivered (fun _ => "Unexpected token") resp = Some view
    /\ App.error
         (App.handleAnalysis (Client.analyzeText (fun _ => Fulfilled view))
            {| App.inputText := "Test cümlesi.";
               App.analysisResult := None;
               App.isLoading := false;
               App.error := None |})
       = Some "Metin analizi sırasında bir hata oluştu: Failed to analyze text.".
Proof.
  destruct (shown_after_failure (fun _ => "Unexpected token") failing_env
              {| App.inputText := "Test cümlesi.";
                 App.analysisResult := None;
                 App.isLoading := false;
                 App.error := None |}
              initial
              (fun _ : string =>
                 Fulfilled
                   {| Client.ok := false;
                      Client.status := 500;
                      Client.parsed :=
                        Fulfilled
                          {| Client.value :=
                               JObject
                                 [("message", JString "Failed to analyze text.");
                                  ("error", JString "fetch failed")];
                             Client.message :=
                               JsString "Failed to analyze text." |} |}))
    as (resp & w' & view & E & S & D & H).
  - vm_compute; discriminate.
  - right. now exists (Error "fetch failed").
  - exists resp, w', view. split; [exact E|].
    assert (V : view
                = {| Client.ok := false;
                     Client.status := 500;
                     Client.parsed :=
                       Fulfilled
                         {| Client.value :=
                              JObject
                                [("message", JString "Failed to analyze text.");
                                 ("error", JString "fetch failed")];
                            Client.message :=
                              JsString "Failed to analyze text." |} |}).
    { vm_compute in E. inversion E; subst resp w'.
      vm_compute in D. now inversion D. }
    split; [vm_compute in E; now inversion E|].
    split; [exact D|].
    rewrite V. rewrite H by now rewrite V. reflexivity.
Defined.

(** X26: The test of the App on its input and the test of the server on the text
    agree on every string, so a text that the App sends is never answered
    400 by the Create of the server. *)
Theorem client_validation_covers_server (e : env) (s : App.State) (w : world) :
  (trim (App.inputText s) =? "") = text_rejected (JsString (App.inputText s))
  /\ (trim (App.inputText s) <> "" ->
      exists resp w',
        post_analyze e (JsString (App.inputText s)) w = (Return resp, w')
        /\ status resp <> 400%N).
Proof.
  split.
  - unfold text_rejected. cbn [truthy typeof_string negb].
    rewrite orb_false_r.
    destruct (App.inputText s =? "") eqn:E; cbn [negb orb]; [|reflexivity].
    apply String.eqb_eq in E. now rewrite E.
  - intros Ht. pose proof (proj2 (accepted_text _) Ht) as T.
    destruct (key_configured e) eqn:K.
    2:{ do 2 eexists. split; [now apply post_key_missing|discriminate]. }
    destruct (provider e (generate_request post_schema (App.inputText s)))
      as [r|err] eqn:P.
    2:{ do 2 eexists.
        split;
          [exact (post_provider_rejects e (JsString (App.inputText s)) w err
                    K T P)|discriminate]. }
    destruct (JSON_parse (source (GenAI.text r))) as [a|] eqn:J.
    + do 2 eexists.
      split;
        [exact (post_created e (JsString (App.inputText s)) w r a K T P J)
        |discriminate].
    + do 2 eexists.
      split;
        [exact (post_unparseable e (JsString (App.inputText s)) w r K T P J)
        |discriminate].
Qed.
